(** * Sim_Opti_Rutas: a three-day itinerary optimiser

    Shallow embedding of [Sim_Opti_Rutas.py] and the properties its
    specification states about it.

    The module-level tables and constants of the script are gathered in a
    [Config] record, so that the functions can be studied on any instance;
    [reference] is the instance the script hard-codes.

    Numbers.  The distance table and the dwell-time table are numpy [int64]
    arrays: distances are summed in [int64] (the wrap-around is written out
    in [wrap64]).  Route times are IEEE binary64 numbers in the script:
    [calculate_route_time_f64] is the function as it computes, on the kernel's
    binary64 numbers, and [find_best_routes_f64] the search that tests those
    times.  [calculate_route_time] is the same loop read in exact rational
    arithmetic ([Q]), and [find_best_routes] the search that tests those
    exact times.  The two searches are the same run on every instance on
    which the ceiling tests of the two readings agree
    ([same_tests_same_run]), as they do on the reference instance
    ([binary64_same_tests]); what the search on binary64 returns on any
    instance is in the section on it. *)

From Stdlib Require Import ZArith QArith List String Bool Lia Lqa.
From Stdlib Require Import Permutation.
From Stdlib Require Import Uint63 Floats.
Import ListNotations.

Local Open Scope Z_scope.

(** ** Exceptions and results *)

Inductive exn : Type :=
| ValueError   (* [list.index] on an absent element *)
| IndexError.  (* numpy index out of bounds *)

Inductive res (A : Type) : Type :=
| Ok (a : A)
| Raise (e : exn).
Arguments Ok {A} a.
Arguments Raise {A} e.

Definition bind {A B : Type} (m : res A) (k : A -> res B) : res B :=
  match m with
  | Ok a => k a
  | Raise e => Raise e
  end.

Declare Scope res_scope.
Delimit Scope res_scope with res.
Notation "x <- m ;; k" := (bind m (fun x => k))
  (at level 100, m at next level, right associativity) : res_scope.

(** ** Global data *)

Record Config : Type := {
  DISTANCES_KM : list (list Z);        (* km, an int64 matrix *)
  TIMES_AT_LOCATION : list Z;          (* hours, an int64 vector *)
  LOCATIONS : list string;
  MAX_TIME_PER_DAY : Z;                (* hours *)
  VELOCIDAD_PROMEDIO_KMH : positive    (* km/h *)
}.

Definition reference : Config := {|
  DISTANCES_KM :=
    [ [0; 30; 25; 35; 40; 32; 45; 35];
      [30; 0; 12; 18; 45; 15; 35; 5];
      [25; 12; 0; 8; 42; 5; 38; 2];
      [35; 18; 8; 0; 40; 3; 39; 5];
      [40; 45; 42; 40; 0; 38; 20; 35];
      [32; 15; 5; 3; 38; 0; 36; 1];
      [45; 35; 38; 39; 20; 36; 0; 30];
      [35; 5; 2; 5; 35; 1; 30; 0] ];
  TIMES_AT_LOCATION := [2; 3; 3; 5; 8; 2; 3; 1];
  LOCATIONS :=
    [ "Aeropuerto"; "Daikin Park"; "Museo de la Salud"; "NRG Stadium";
      "NASA"; "Toyota Center"; "USS Texas Museum"; "Hotel" ]%string;
  MAX_TIME_PER_DAY := 12;
  VELOCIDAD_PROMEDIO_KMH := 60
|}.

(** The reference instance with another daily ceiling. *)
Definition with_ceiling (cfg : Config) (hours : Z) : Config := {|
  DISTANCES_KM := DISTANCES_KM cfg;
  TIMES_AT_LOCATION := TIMES_AT_LOCATION cfg;
  LOCATIONS := LOCATIONS cfg;
  MAX_TIME_PER_DAY := hours;
  VELOCIDAD_PROMEDIO_KMH := VELOCIDAD_PROMEDIO_KMH cfg
|}.

(** ** Indexing *)

(** An index into an axis of [n] entries: [0 .. n-1] as they are, [-n .. -1]
    counted from the end, anything else is out of bounds. *)
Definition axis_index (n : nat) (i : Z) : res nat :=
  if (0 <=? i) && (i <? Z.of_nat n) then Ok (Z.to_nat i)
  else if (- Z.of_nat n <=? i) && (i <? 0) then Ok (Z.to_nat (i + Z.of_nat n))
  else Raise IndexError.

Definition getitem {A : Type} (xs : list A) (i : Z) : res A :=
  (k <- axis_index (List.length xs) i ;;
   match nth_error xs k with
   | Some x => Ok x
   | None => Raise IndexError
   end)%res.

(** [DISTANCES_KM[i, j]] *)
Definition getitem2 (m : list (list Z)) (i j : Z) : res Z :=
  (row <- getitem m i ;; getitem row j)%res.

(** [xs.index(x)] *)
Fixpoint index_from (xs : list string) (x : string) (i : Z) : res Z :=
  match xs with
  | [] => Raise ValueError
  | y :: ys => if String.eqb y x then Ok i else index_from ys x (i + 1)
  end.

(** Addition of two [int64] values. *)
Definition wrap64 (z : Z) : Z := (z + 2 ^ 63) mod 2 ^ 64 - 2 ^ 63.

Section Functions.

Variable cfg : Config.

Definition get_location_index (loc_name : string) : res Z :=
  index_from (LOCATIONS cfg) loc_name 0.

(** ** Route metrics *)

(** The loop of [calculate_route_time] read in exact arithmetic:
    [total_time] is the accumulator, the head of [route] is [route[i]], and
    the division and the two additions are those of the rationals.  The
    script rounds each of them to binary64: that loop is
    [route_time_loop_f64] below. *)
Fixpoint route_time_loop (route : list Z) (total_time : Q) : res Q :=
  match route with
  | idx_from :: ((idx_to :: _) as rest) =>
      (d <- getitem2 (DISTANCES_KM cfg) idx_from idx_to ;;
       let travel_time := (inject_Z d / inject_Z (Zpos (VELOCIDAD_PROMEDIO_KMH cfg)))%Q in
       let total_time := (total_time + travel_time)%Q in
       t <- getitem (TIMES_AT_LOCATION cfg) idx_to ;;
       route_time_loop rest (total_time + inject_Z t)%Q)%res
  | _ => Ok total_time
  end.

Definition calculate_route_time (route : list Z) : res Q :=
  route_time_loop route 0%Q.

Fixpoint route_distance_loop (route : list Z) (total_distance : Z) : res Z :=
  match route with
  | idx_from :: ((idx_to :: _) as rest) =>
      (d <- getitem2 (DISTANCES_KM cfg) idx_from idx_to ;;
       route_distance_loop rest (wrap64 (total_distance + d)))%res
  | _ => Ok total_distance
  end.

Definition calculate_route_distance (route : list Z) : res Z :=
  route_distance_loop route 0.

(** ** Enumeration *)

(** Every way of taking one element out of [pool], in the order of the
    positions: the element and what is left. *)
Fixpoint picks {A : Type} (pool : list A) : list (A * list A) :=
  match pool with
  | [] => []
  | x :: pool' => (x, pool') :: map (fun p => (fst p, x :: snd p)) (picks pool')
  end.

(** [itertools.permutations(pool, r)]: the [r]-length arrangements of the
    positions of [pool], in lexicographic order of the positions. *)
Fixpoint permutations {A : Type} (pool : list A) (r : nat) : list (list A) :=
  match r with
  | O => [[]]
  | S r' => flat_map (fun p => map (cons (fst p)) (permutations (snd p) r')) (picks pool)
  end.

Definition mem (x : Z) (xs : list Z) : bool := existsb (Z.eqb x) xs.

(** [range(n)] *)
Definition range (n : nat) : list Z := map Z.of_nat (seq 0 n).

(** [[i for i in range(len(LOCATIONS)) if i not in {a, h, n}]] *)
Definition places_to_visit (idx_aeropuerto idx_hotel idx_nasa : Z) : list Z :=
  filter (fun i => negb (mem i [idx_aeropuerto; idx_hotel; idx_nasa]))
         (range (List.length (LOCATIONS cfg))).

(** [list(set(places) - set(day1_places))].  CPython walks a set of
    non-negative integers below 8, the size of its smallest table, in
    increasing order, which is the order of [places]; the indices of the
    reference instance are such.  On an instance with more locations the
    order CPython gives to [day3_places_set] can be another one: the
    combinations are then the same, entered in another order. *)
Definition day3_places_set (places day1_places : list Z) : list Z :=
  filter (fun p => negb (mem p day1_places)) places.

(** ** The search *)

(** [best_total_distance]: [float('inf')] until a total is recorded. *)
Inductive bound : Type :=
| Infinity
| Finite (d : Z).

Definition lt_bound (d : Z) (b : bound) : bool :=
  match b with
  | Infinity => true
  | Finite b => d <? b
  end.

(** The two variables the loops update, what was printed, and the
    combinations the innermost loop has been entered with (a record of the
    run, which the script does not keep). *)
Record state : Type := {
  best_routes_combination : option (list (list Z));
  best_total_distance : bound;
  stdout : list string;
  examined : list (list Z * list Z)
}.

Definition initial : state := {|
  best_routes_combination := None;
  best_total_distance := Infinity;
  stdout := [];
  examined := []
|}.

Definition enter (c : list Z * list Z) (s : state) : state := {|
  best_routes_combination := best_routes_combination s;
  best_total_distance := best_total_distance s;
  stdout := stdout s;
  examined := examined s ++ [c]
|}.

Definition print (line : string) (s : state) : state := {|
  best_routes_combination := best_routes_combination s;
  best_total_distance := best_total_distance s;
  stdout := stdout s ++ [line];
  examined := examined s
|}.

Definition record (routes : list (list Z)) (d : Z) (s : state) : state := {|
  best_routes_combination := Some routes;
  best_total_distance := Finite d;
  stdout := stdout s;
  examined := examined s
|}.

(** What one pass through a loop body does to the control flow. *)
Inductive flow : Type :=
| Next (s : state)                                   (* fall through or [continue] *)
| Return (v : option (list (list Z))) (s : state)    (* [return v] *)
| Throw (e : exn).

Fixpoint for_each {A : Type} (xs : list A) (body : A -> state -> flow) (s : state) : flow :=
  match xs with
  | [] => Next s
  | x :: xs' =>
      match body x s with
      | Next s' => for_each xs' body s'
      | stop => stop
      end
  end.

Definition try {A : Type} (m : res A) (k : A -> flow) : flow :=
  match m with
  | Ok a => k a
  | Raise e => Throw e
  end.

(** [t > MAX_TIME_PER_DAY] *)
Definition exceeds (t : Q) : bool := negb (Qle_bool t (inject_Z (MAX_TIME_PER_DAY cfg))).

Definition error_day2 : string := "Error: El día 2 (NASA) excede el tiempo máximo.".

(** The body of the innermost loop. *)
Definition combination (idx_aeropuerto idx_hotel idx_nasa : Z)
    (day1_places day3_places : list Z) (s : state) : flow :=
  let s := enter (day1_places, day3_places) s in
  let day1_route := [idx_aeropuerto] ++ day1_places ++ [idx_hotel] in
  try (calculate_route_time day1_route) (fun day1_time =>
  if exceeds day1_time then Next s else
  let day2_route := [idx_hotel; idx_nasa; idx_hotel] in
  try (calculate_route_time day2_route) (fun day2_time =>
  if exceeds day2_time then Return None (print error_day2 s) else
  let day3_route := [idx_hotel] ++ day3_places ++ [idx_aeropuerto] in
  try (calculate_route_time day3_route) (fun day3_time =>
  if exceeds day3_time then Next s else
  try (calculate_route_distance day1_route) (fun distance1 =>
  try (calculate_route_distance day2_route) (fun distance2 =>
  try (calculate_route_distance day3_route) (fun distance3 =>
  let current_distance := wrap64 (wrap64 (distance1 + distance2) + distance3) in
  if lt_bound current_distance (best_total_distance s)
  then Next (record [day1_route; day2_route; day3_route] current_distance s)
  else Next s)))))).

(** The three nested loops; [seq 1 (len - 1)] is [range(1, len)]. *)
Definition search (idx_aeropuerto idx_hotel idx_nasa : Z) (s : state) : flow :=
  let places := places_to_visit idx_aeropuerto idx_hotel idx_nasa in
  for_each (seq 1 (List.length places - 1)) (fun day1_size =>
    for_each (permutations places day1_size) (fun day1_places =>
      let day3 := day3_places_set places day1_places in
      for_each (permutations day3 (List.length day3)) (fun day3_places =>
        combination idx_aeropuerto idx_hotel idx_nasa day1_places day3_places))) s.

(** The value returned and the state the run ends in. *)
Definition find_best_routes : res (option (list (list Z)) * state) :=
  (idx_aeropuerto <- get_location_index "Aeropuerto" ;;
   idx_hotel <- get_location_index "Hotel" ;;
   idx_nasa <- get_location_index "NASA" ;;
   match search idx_aeropuerto idx_hotel idx_nasa initial with
   | Next s => Ok (best_routes_combination s, s)
   | Return v s => Ok (v, s)
   | Throw e => Raise e
   end)%res.

(** ** Vocabulary of the specification *)

(** [distance(a, b)], [dwellTime(loc)] and [travelTime(a, b)] as total
    functions; they are only meant for identifiers of the tables. *)
Definition distance (a b : Z) : Z :=
  match getitem2 (DISTANCES_KM cfg) a b with
  | Ok d => d
  | Raise _ => 0
  end.

Definition dwellTime (loc : Z) : Z :=
  match getitem (TIMES_AT_LOCATION cfg) loc with
  | Ok t => t
  | Raise _ => 0
  end.

Definition travelTime (a b : Z) : Q :=
  (inject_Z (distance a b) / inject_Z (Zpos (VELOCIDAD_PROMEDIO_KMH cfg)))%Q.

(** The consecutive pairs (from, to) of a route. *)
Fixpoint legs (route : list Z) : list (Z * Z) :=
  match route with
  | a :: ((b :: _) as rest) => (a, b) :: legs rest
  | _ => []
  end.

Definition Qsum (qs : list Q) : Q := fold_right Qplus 0%Q qs.

(** [routeTime(route)] as the specification words it: the sum over the
    consecutive pairs of travel time plus dwell time at the arrival. *)
Definition routeTime (route : list Z) : Q :=
  Qsum (map (fun leg => (travelTime (fst leg) (snd leg)
                         + inject_Z (dwellTime (snd leg)))%Q) (legs route)).

(** A location identifier of the instance. *)
Definition location (i : Z) : Prop :=
  0 <= i < Z.of_nat (List.length (LOCATIONS cfg)).

(** The tables have an entry for every location. *)
Definition tables_cover : Prop :=
  (List.length (LOCATIONS cfg) <= List.length (DISTANCES_KM cfg))%nat /\
  Forall (fun row => (List.length (LOCATIONS cfg) <= List.length row)%nat) (DISTANCES_KM cfg) /\
  (List.length (LOCATIONS cfg) <= List.length (TIMES_AT_LOCATION cfg))%nat.

(** They do, and the three names the search looks up are listed. *)
Definition well_formed : Prop :=
  tables_cover /\
  In "Aeropuerto"%string (LOCATIONS cfg) /\
  In "Hotel"%string (LOCATIONS cfg) /\
  In "NASA"%string (LOCATIONS cfg).

Definition non_negative_tables : Prop :=
  Forall (Forall (fun d => 0 <= d)) (DISTANCES_KM cfg) /\
  Forall (fun t => 0 <= t) (TIMES_AT_LOCATION cfg).

(** The route time is within the ceiling. *)
Definition within_ceiling (route : list Z) : Prop :=
  exists t, calculate_route_time route = Ok t /\ (t <= inject_Z (MAX_TIME_PER_DAY cfg))%Q.

(** The stops strictly between the two ends of a route: [route[1:-1]]. *)
Definition intermediate (route : list Z) : list Z := removelast (tl route).

(** A DayAssignment: the three routes built from a Day-1 selection and a
    Day-3 ordering. *)
Definition day_assignment (idx_aeropuerto idx_hotel idx_nasa : Z)
    (c : list Z * list Z) : list (list Z) :=
  [ [idx_aeropuerto] ++ fst c ++ [idx_hotel];
    [idx_hotel; idx_nasa; idx_hotel];
    [idx_hotel] ++ snd c ++ [idx_aeropuerto] ].

(** The total distance of a DayAssignment, summed as the search does. *)
Definition total_distance (routes : list (list Z)) : res Z :=
  match routes with
  | [day1_route; day2_route; day3_route] =>
      (distance1 <- calculate_route_distance day1_route ;;
       distance2 <- calculate_route_distance day2_route ;;
       distance3 <- calculate_route_distance day3_route ;;
       Ok (wrap64 (wrap64 (distance1 + distance2) + distance3)))%res
  | _ => Raise IndexError
  end.

(** The three day routes are all within the ceiling. *)
Definition feasible (routes : list (list Z)) : Prop := Forall within_ceiling routes.

(** The combinations (Day-1 selection, Day-3 ordering) in the order in which
    the three loops reach them. *)
Definition combinations (places : list Z) : list (list Z * list Z) :=
  flat_map (fun day1_size =>
    flat_map (fun day1_places =>
      let day3 := day3_places_set places day1_places in
      map (fun day3_places => (day1_places, day3_places))
          (permutations day3 (List.length day3)))
      (permutations places day1_size))
    (seq 1 (List.length places - 1)).

(** The three indices the search looks up first. *)
Definition anchors : res (Z * Z * Z) :=
  (idx_aeropuerto <- get_location_index "Aeropuerto" ;;
   idx_hotel <- get_location_index "Hotel" ;;
   idx_nasa <- get_location_index "NASA" ;;
   Ok (idx_aeropuerto, idx_hotel, idx_nasa))%res.

(** The free locations and the combinations of the instance. *)
Definition free_locations : list Z :=
  match anchors with
  | Ok (a, h, n) => places_to_visit a h n
  | Raise _ => []
  end.

Definition enumeration : list (list Z * list Z) := combinations free_locations.

(** The DayAssignments the search can produce, in enumeration order. *)
Definition candidates : list (list (list Z)) :=
  match anchors with
  | Ok (a, h, n) => map (day_assignment a h n) enumeration
  | Raise _ => []
  end.

(** The Day-1 route of a combination passes its ceiling test. *)
Definition day1_passes (c : list Z * list Z) : bool :=
  match anchors with
  | Ok (a, h, _) =>
      match calculate_route_time ([a] ++ fst c ++ [h]) with
      | Ok t => negb (exceeds t)
      | Raise _ => false
      end
  | Raise _ => false
  end.

(** The fixed day: Hotel, NASA, Hotel. *)
Definition fixed_day : list Z :=
  match anchors with
  | Ok (_, h, n) => [h; n; h]
  | Raise _ => []
  end.

End Functions.

(** The elements of a list up to and including the first one that satisfies
    [p]; the whole list when there is none. *)
Fixpoint upto_first {A : Type} (p : A -> bool) (xs : list A) : list A :=
  match xs with
  | [] => []
  | x :: xs' => if p x then [x] else x :: upto_first p xs'
  end.

(** [routes] is, among the feasible DayAssignments of [xs], the first one
    of least total distance: the feasible ones before it are strictly longer,
    the feasible ones after it are at least as long. *)
Definition first_of_the_best (cfg : Config) (xs : list (list (list Z)))
    (routes : list (list Z)) : Prop :=
  exists before after d,
    xs = before ++ routes :: after /\
    feasible cfg routes /\
    total_distance cfg routes = Ok d /\
    (forall r, In r before -> feasible cfg r ->
               exists d', total_distance cfg r = Ok d' /\ d < d') /\
    (forall r, In r after -> feasible cfg r ->
               exists d', total_distance cfg r = Ok d' /\ d <= d').

(** What holds of the state once the loops have passed the combinations
    [pre] without returning. *)
Definition search_invariant (cfg : Config) (a h n : Z)
    (pre : list (list Z * list Z)) (s : state) : Prop :=
  examined s = pre /\ stdout s = [] /\
  match best_routes_combination s with
  | None =>
      best_total_distance s = Infinity /\
      forall c, In c pre -> ~ feasible cfg (day_assignment a h n c)
  | Some routes =>
      first_of_the_best cfg (map (day_assignment a h n) pre) routes /\
      exists d, total_distance cfg routes = Ok d /\ best_total_distance s = Finite d
  end.

(** Day 1 and Day 3 of a DayAssignment share out the free locations: their
    intermediate stops, put together, are the free locations, each once. *)
Definition shares_out_free_locations (cfg : Config) (routes : list (list Z)) : Prop :=
  exists day1_route day2_route day3_route,
    routes = [day1_route; day2_route; day3_route] /\
    NoDup (intermediate day1_route ++ intermediate day3_route) /\
    Permutation (intermediate day1_route ++ intermediate day3_route) (free_locations cfg).

(** Both open days of a DayAssignment have at least one free stop, and so
    at most |free| - 1. *)
Definition both_days_have_a_stop (cfg : Config) (routes : list (list Z)) : Prop :=
  exists day1_route day2_route day3_route,
    routes = [day1_route; day2_route; day3_route] /\
    (1 <= List.length (intermediate day1_route) <= List.length (free_locations cfg) - 1)%nat /\
    (1 <= List.length (intermediate day3_route) <= List.length (free_locations cfg) - 1)%nat.

(** The run of the search on the reference instance. *)
Definition reference_routes : list (list Z) :=
  [[0; 2; 3; 5; 7]; [7; 4; 7]; [7; 1; 6; 0]].

Definition reference_final : state :=
  match find_best_routes reference with
  | Ok (_, s) => s
  | Raise _ => initial
  end.

(** Entering the innermost loop with each of [cs] in turn. *)
Definition enter_all (cs : list (list Z * list Z)) (s : state) : state :=
  fold_left (fun s c => enter c s) cs s.

(** The reference instance with a ceiling of 10 hours, and of 1 hour. *)
Definition ceiling_10 : Config := with_ceiling reference 10.
Definition ceiling_1 : Config := with_ceiling reference 1.

(** ** The script's arithmetic on binary64 numbers *)

(** The binary64 number an integer converts to: the nearest one, ties to
    even (the integer itself below 2^53). *)
Definition float_of_int (z : Z) : float :=
  SF2Prim (binary_normalize prec emax z 0 false).

(** The loop of [calculate_route_time] as the script computes it:
    [total_time] is the accumulator, the head of [route] is [route[i]]; the
    division and each of the two additions round to binary64, and the two
    integers are converted first. *)
Fixpoint route_time_loop_f64 (cfg : Config) (route : list Z) (total_time : float) : res float :=
  match route with
  | idx_from :: ((idx_to :: _) as rest) =>
      (d <- getitem2 (DISTANCES_KM cfg) idx_from idx_to ;;
       let travel_time :=
         PrimFloat.div (float_of_int d) (float_of_int (Zpos (VELOCIDAD_PROMEDIO_KMH cfg))) in
       let total_time := PrimFloat.add total_time travel_time in
       t <- getitem (TIMES_AT_LOCATION cfg) idx_to ;;
       route_time_loop_f64 cfg rest (PrimFloat.add total_time (float_of_int t)))%res
  | _ => Ok total_time
  end.

Definition calculate_route_time_f64 (cfg : Config) (route : list Z) : res float :=
  route_time_loop_f64 cfg route (float_of_int 0).

(** [travelTime(a, b)] on binary64. *)
Definition travelTime_f64 (cfg : Config) (a b : Z) : float :=
  PrimFloat.div (float_of_int (distance cfg a b))
                (float_of_int (Zpos (VELOCIDAD_PROMEDIO_KMH cfg))).

(** The running total over the consecutive pairs of a route, in their
    order: the travel time is added, then the dwell time at the arrival, and
    each addition rounds. *)
Definition running_total_f64 (cfg : Config) (route : list Z) : float :=
  fold_left
    (fun total_time leg =>
       PrimFloat.add (PrimFloat.add total_time (travelTime_f64 cfg (fst leg) (snd leg)))
                     (float_of_int (dwellTime cfg (snd leg))))
    (legs route) (float_of_int 0).

(** The sum of the specification on binary64: the term of a pair is its
    travel time plus the dwell time at the arrival; the terms are added from
    the first pair on, or from the last one back. *)
Definition leg_time_f64 (cfg : Config) (leg : Z * Z) : float :=
  PrimFloat.add (travelTime_f64 cfg (fst leg) (snd leg))
                (float_of_int (dwellTime cfg (snd leg))).

Definition sum_of_legs_f64 (cfg : Config) (route : list Z) : float :=
  fold_left PrimFloat.add (map (leg_time_f64 cfg) (legs route)) (float_of_int 0).

Definition sum_of_legs_backwards_f64 (cfg : Config) (route : list Z) : float :=
  fold_right PrimFloat.add (float_of_int 0) (map (leg_time_f64 cfg) (legs route)).

(** The binary64 number nearest to a rational whose numerator and
    denominator are below 2^53: their quotient, rounded once. *)
Definition nearest_f64 (q : Q) : float :=
  PrimFloat.div (float_of_int (Qnum q)) (float_of_int (Zpos (Qden q))).

(** [t > MAX_TIME_PER_DAY] on binary64. *)
Definition exceeds_f64 (cfg : Config) (t : float) : bool :=
  PrimFloat.ltb (float_of_int (MAX_TIME_PER_DAY cfg)) t.

(** The ceiling test of a route has the same outcome in both arithmetics. *)
Definition same_test (cfg : Config) (route : list Z) : bool :=
  match calculate_route_time cfg route, calculate_route_time_f64 cfg route with
  | Ok q, Ok f => Bool.eqb (exceeds cfg q) (exceeds_f64 cfg f)
  | Raise e, Raise e' => true
  | _, _ => false
  end.

(** So have the tests of all the routes the search can build on [cfg]. *)
Definition same_tests (cfg : Config) : bool :=
  forallb (forallb (same_test cfg)) (candidates cfg).

(** The search with its three ceiling tests made on binary64. *)
Definition combination_f64 (cfg : Config) (idx_aeropuerto idx_hotel idx_nasa : Z)
    (day1_places day3_places : list Z) (s : state) : flow :=
  let s := enter (day1_places, day3_places) s in
  let day1_route := [idx_aeropuerto] ++ day1_places ++ [idx_hotel] in
  try (calculate_route_time_f64 cfg day1_route) (fun day1_time =>
  if exceeds_f64 cfg day1_time then Next s else
  let day2_route := [idx_hotel; idx_nasa; idx_hotel] in
  try (calculate_route_time_f64 cfg day2_route) (fun day2_time =>
  if exceeds_f64 cfg day2_time then Return None (print error_day2 s) else
  let day3_route := [idx_hotel] ++ day3_places ++ [idx_aeropuerto] in
  try (calculate_route_time_f64 cfg day3_route) (fun day3_time =>
  if exceeds_f64 cfg day3_time then Next s else
  try (calculate_route_distance cfg day1_route) (fun distance1 =>
  try (calculate_route_distance cfg day2_route) (fun distance2 =>
  try (calculate_route_distance cfg day3_route) (fun distance3 =>
  let current_distance := wrap64 (wrap64 (distance1 + distance2) + distance3) in
  if lt_bound current_distance (best_total_distance s)
  then Next (record [day1_route; day2_route; day3_route] current_distance s)
  else Next s)))))).

Definition search_f64 (cfg : Config) (idx_aeropuerto idx_hotel idx_nasa : Z)
    (s : state) : flow :=
  let places := places_to_visit cfg idx_aeropuerto idx_hotel idx_nasa in
  for_each (seq 1 (List.length places - 1)) (fun day1_size =>
    for_each (permutations places day1_size) (fun day1_places =>
      let day3 := day3_places_set places day1_places in
      for_each (permutations day3 (List.length day3)) (fun day3_places =>
        combination_f64 cfg idx_aeropuerto idx_hotel idx_nasa day1_places day3_places))) s.

Definition find_best_routes_f64 (cfg : Config) : res (option (list (list Z)) * state) :=
  (idx_aeropuerto <- get_location_index cfg "Aeropuerto" ;;
   idx_hotel <- get_location_index cfg "Hotel" ;;
   idx_nasa <- get_location_index cfg "NASA" ;;
   match search_f64 cfg idx_aeropuerto idx_hotel idx_nasa initial with
   | Next s => Ok (best_routes_combination s, s)
   | Return v s => Ok (v, s)
   | Throw e => Raise e
   end)%res.

(** The ceiling test of the script lets the route through: its time is not
    greater than [MAX_TIME_PER_DAY]. *)
Definition passes_f64 (cfg : Config) (route : list Z) : Prop :=
  exists t, calculate_route_time_f64 cfg route = Ok t /\ exceeds_f64 cfg t = false.

(** The three day routes all pass it. *)
Definition feasible_f64 (cfg : Config) (routes : list (list Z)) : Prop :=
  Forall (passes_f64 cfg) routes.

(** [first_of_the_best] and [search_invariant] for the tests on binary64. *)
Definition first_of_the_best_f64 (cfg : Config) (xs : list (list (list Z)))
    (routes : list (list Z)) : Prop :=
  exists before after d,
    xs = before ++ routes :: after /\
    feasible_f64 cfg routes /\
    total_distance cfg routes = Ok d /\
    (forall r, In r before -> feasible_f64 cfg r ->
               exists d', total_distance cfg r = Ok d' /\ d < d') /\
    (forall r, In r after -> feasible_f64 cfg r ->
               exists d', total_distance cfg r = Ok d' /\ d <= d').

Definition search_invariant_f64 (cfg : Config) (a h n : Z)
    (pre : list (list Z * list Z)) (s : state) : Prop :=
  examined s = pre /\ stdout s = [] /\
  match best_routes_combination s with
  | None =>
      best_total_distance s = Infinity /\
      forall c, In c pre -> ~ feasible_f64 cfg (day_assignment a h n c)
  | Some routes =>
      first_of_the_best_f64 cfg (map (day_assignment a h n) pre) routes /\
      exists d, total_distance cfg routes = Ok d /\ best_total_distance s = Finite d
  end.

(** An instance where every day takes exactly the ceiling: five locations
    an hour apart, an hour spent at each, four hours a day. *)
Definition exact_fit : Config := {|
  DISTANCES_KM :=
    [ [0; 60; 60; 60; 60];
      [60; 0; 60; 60; 60];
      [60; 60; 0; 60; 60];
      [60; 60; 60; 0; 60];
      [60; 60; 60; 60; 0] ];
  TIMES_AT_LOCATION := [1; 1; 1; 1; 1];
  LOCATIONS := [ "Aeropuerto"; "Parque"; "Museo"; "NASA"; "Hotel" ]%string;
  MAX_TIME_PER_DAY := 4;
  VELOCIDAD_PROMEDIO_KMH := 60
|}.

(** The run of the search on [exact_fit], where the two DayAssignments
    tie. *)
Definition exact_fit_routes : list (list Z) := [[0; 1; 4]; [4; 3; 4]; [4; 2; 0]].

Definition exact_fit_final : state :=
  match find_best_routes exact_fit with
  | Ok (_, s) => s
  | Raise _ => initial
  end.

(** ** Further vocabulary *)

Definition Zsum (zs : list Z) : Z := fold_right Z.add 0 zs.

(** The distances of the consecutive pairs of a route, added up. *)
Definition legs_distance (cfg : Config) (route : list Z) : Z :=
  Zsum (map (fun leg => distance cfg (fst leg) (snd leg)) (legs route)).

(** The distance table gives the same distance both ways. *)
Definition symmetric_table (cfg : Config) : Prop :=
  forall a b, location cfg a -> location cfg b -> distance cfg a b = distance cfg b a.

(** The distance table is [n] by [n]. *)
Definition square_distances (cfg : Config) (n : nat) : Prop :=
  List.length (DISTANCES_KM cfg) = n /\
  Forall (fun row => List.length row = n) (DISTANCES_KM cfg).

(** [i] is an index numpy accepts on an axis of [n] entries. *)
Definition on_axis (n : nat) (i : Z) : Prop := - Z.of_nat n <= i < Z.of_nat n.

(** An instance that does not list NASA, and one with a single free
    location; neither has tables. *)
Definition no_nasa : Config := {|
  DISTANCES_KM := [];
  TIMES_AT_LOCATION := [];
  LOCATIONS := [ "Aeropuerto"; "Museo"; "Parque"; "Hotel" ]%string;
  MAX_TIME_PER_DAY := 12;
  VELOCIDAD_PROMEDIO_KMH := 60
|}.

Definition one_free_place : Config := {|
  DISTANCES_KM := [];
  TIMES_AT_LOCATION := [];
  LOCATIONS := [ "Aeropuerto"; "Museo"; "NASA"; "Hotel" ]%string;
  MAX_TIME_PER_DAY := 12;
  VELOCIDAD_PROMEDIO_KMH := 60
|}.

(** The state the run with a ceiling of 10 hours ends in. *)
Definition ceiling_10_final : state :=
  match find_best_routes ceiling_10 with
  | Ok (_, s) => s
  | Raise _ => initial
  end.

(** ** The report *)

(** What [print] is called with: one constructor for each [print] of the
    script, holding the values its text is formatted from (times are the
    script's binary64 numbers).  The rendering of the numbers ([:.2f]) is
    left out. *)
Inductive line : Type :=
| DayHeader (day : nat)                         (* ========== Día {day} ========== *)
| RouteLine (route_names : list string)         (* Ruta: a → b → c *)
| DetailHeader                                  (* Detalle por segmento: *)
| SegmentLine (from_loc to_loc : string)        (* {from_loc} → {to_loc}: *)
| TravelTimeLine (travel_time_h : float)          (* - Tiempo de viaje: ... horas *)
| VisitTimeLine (to_loc : string) (visit_time_h : Z)  (* - Tiempo en {to_loc}: ... horas *)
| SummaryHeader (day : nat)                     (* Resumen día {day}: *)
| DayDistanceLine (day_distance : Z)            (* - Distancia recorrida: ... km *)
| DayTimeLine (day_time : float)                 (* - Tiempo total (viaje + visita): ... horas *)
| FinalHeader                                   (* ========== RESUMEN FINAL ========== *)
| TotalDistanceLine (total_distance_global : Z) (* Distancia total recorrida: ... km *)
| TotalTimeLine (total_time_global : float)        (* Tiempo total del viaje: ... horas *)
| VisitedHeader                                 (* Lugares visitados por día: *)
| VisitedLine (day : nat) (day_locations : list string)  (* Día {day}: a, b *)
| TransferLine (day : nat)                      (* Día {day}: (Día de traslado o visita única) *)
| Text (text : string).

(** A computation that prints and then returns or raises; what was printed
    before an exception stays printed. *)
Definition out (A : Type) : Type := (list line * res A)%type.

Definition emit (l : line) : out unit := ([l], Ok tt).

Definition call {A : Type} (m : res A) : out A := ([], m).

Definition and_then {A B : Type} (m : out A) (k : A -> out B) : out B :=
  match m with
  | (printed, Ok a) => let (more, r) := k a in (printed ++ more, r)
  | (printed, Raise e) => (printed, Raise e)
  end.

Declare Scope out_scope.
Delimit Scope out_scope with out.
Notation "x <~ m ;; k" := (and_then m (fun x => k))
  (at level 100, m at next level, right associativity) : out_scope.
Notation "m ;;; k" := (and_then m (fun _ => k))
  (at level 100, right associativity) : out_scope.

(** [[LOCATIONS[i] for i in indices]] *)
Fixpoint location_names (cfg : Config) (indices : list Z) : res (list string) :=
  match indices with
  | [] => Ok []
  | i :: rest =>
      (name <- getitem (LOCATIONS cfg) i ;;
       names <- location_names cfg rest ;;
       Ok (name :: names))%res
  end.

(** [to_loc in ('Hotel', 'Aeropuerto')] *)
Definition is_anchor (to_loc : string) : bool :=
  String.eqb to_loc "Hotel" || String.eqb to_loc "Aeropuerto".

(** The loop over the segments of a day; the head of [route] is
    [route[i]], and [i == len(route) - 2] when nothing follows [route[i+1]].
    It returns [current_time_accumulator]. *)
Fixpoint segments (cfg : Config) (route : list Z) (current_time_accumulator : float)
    : out float :=
  match route with
  | from_idx :: ((to_idx :: rest') as rest) =>
      (from_loc <~ call (getitem (LOCATIONS cfg) from_idx) ;;
       to_loc <~ call (getitem (LOCATIONS cfg) to_idx) ;;
       d <~ call (getitem2 (DISTANCES_KM cfg) from_idx to_idx) ;;
       let travel_time_h :=
         PrimFloat.div (float_of_int d) (float_of_int (Zpos (VELOCIDAD_PROMEDIO_KMH cfg))) in
       visit_time_h <~ call (getitem (TIMES_AT_LOCATION cfg) to_idx) ;;
       emit (SegmentLine from_loc to_loc) ;;;
       emit (TravelTimeLine travel_time_h) ;;;
       let current_time_accumulator := PrimFloat.add current_time_accumulator travel_time_h in
       if is_anchor to_loc && match rest' with [] => true | _ => false end
       then segments cfg rest current_time_accumulator
       else
         emit (VisitTimeLine to_loc visit_time_h) ;;;
         segments cfg rest (PrimFloat.add current_time_accumulator (float_of_int visit_time_h)))%out
  | _ => ([], Ok current_time_accumulator)
  end.

(** The body of the loop over the days; it returns [day_distance] and
    [day_time]. *)
Definition day_block (cfg : Config) (day : nat) (route : list Z) : out (Z * float) :=
  (emit (DayHeader day) ;;;
   route_names <~ call (location_names cfg route) ;;
   emit (RouteLine route_names) ;;;
   day_distance <~ call (calculate_route_distance cfg route) ;;
   day_time <~ call (calculate_route_time_f64 cfg route) ;;
   emit DetailHeader ;;;
   segments cfg route (float_of_int 0) ;;;
   emit (SummaryHeader day) ;;;
   emit (DayDistanceLine day_distance) ;;;
   emit (DayTimeLine day_time) ;;;
   ([], Ok (day_distance, day_time)))%out.

(** [for day, route in enumerate(routes, 1)], with the two totals. *)
Fixpoint days (cfg : Config) (routes : list (list Z)) (day : nat)
    (total_distance_global : Z) (total_time_global : float) : out (Z * float) :=
  match routes with
  | [] => ([], Ok (total_distance_global, total_time_global))
  | route :: rest =>
      (r <~ day_block cfg day route ;;
       days cfg rest (S day)
         (wrap64 (total_distance_global + fst r))
         (PrimFloat.add total_time_global (snd r)))%out
  end.

(** The last loop: the places visited each day. *)
Fixpoint visited (cfg : Config) (routes : list (list Z)) (day : nat) : out unit :=
  match routes with
  | [] => ([], Ok tt)
  | route :: rest =>
      (day_locations <~ call (location_names cfg (intermediate route)) ;;
       match day_locations with
       | [] => emit (TransferLine day)
       | _ => emit (VisitedLine day day_locations)
       end ;;;
       visited cfg rest (S day))%out
  end.

Definition print_detailed_itinerary (cfg : Config) (routes : list (list Z)) : out unit :=
  (totals <~ days cfg routes 1 0 (float_of_int 0) ;;
   emit FinalHeader ;;;
   emit (TotalDistanceLine (fst totals)) ;;;
   emit (TotalTimeLine (snd totals)) ;;;
   emit VisitedHeader ;;;
   visited cfg routes 1)%out.

(** ** The entry point *)

Definition calculando : string := "Calculando el itinerario óptimo...".
Definition encontrado : string := "¡Se encontró el mejor itinerario!".
Definition no_encontrado : string :=
  "No se encontró una solución que cumpla con todas las restricciones de tiempo.".

(** The block under [if __name__ == "__main__"]; [if best_routes] holds of
    a list that is not empty. *)
Definition main (cfg : Config) : out unit :=
  (emit (Text calculando) ;;;
   match find_best_routes_f64 cfg with
   | Raise e => ([], Raise e)
   | Ok (best_routes, s) =>
       (map Text (stdout s), Ok tt) ;;;
       match best_routes with
       | Some (day1 :: others) =>
           emit (Text encontrado) ;;;
           print_detailed_itinerary cfg (day1 :: others)
       | _ => emit (Text no_encontrado)
       end
   end)%out.

(** The lines of a kind among the segment lines. *)
Definition is_travel_time_line (l : line) : bool :=
  match l with TravelTimeLine _ => true | _ => false end.

Definition is_visit_time_line (l : line) : bool :=
  match l with VisitTimeLine _ _ => true | _ => false end.

(** The lines the loop over the days prints. *)
Definition is_day_line (l : line) : bool :=
  match l with
  | DayHeader _ | RouteLine _ | DetailHeader | SegmentLine _ _ | TravelTimeLine _
  | VisitTimeLine _ _ | SummaryHeader _ | DayDistanceLine _ | DayTimeLine _ => true
  | _ => false
  end.

(** ** Appending a stop, on binary64 *)

(** The routes of [k] entries over the first [n] indices. *)
Fixpoint routes_of_length (n : nat) (k : nat) : list (list Z) :=
  match k with
  | O => [[]]
  | S k' => flat_map (fun i => map (cons i) (routes_of_length n k')) (range n)
  end.

(** [calculate_route_time(route + [x]) >= calculate_route_time(route)] as
    the script would evaluate it. *)
Definition appending_keeps_time_f64 (cfg : Config) (route : list Z) (x : Z) : bool :=
  match calculate_route_time_f64 cfg route, calculate_route_time_f64 cfg (route ++ [x]) with
  | Ok t, Ok t' => PrimFloat.leb t t'
  | _, _ => false
  end.

(** The lines the last loop prints. *)
Definition is_visited_line (l : line) : bool :=
  match l with VisitedLine _ _ | TransferLine _ => true | _ => false end.

(** * Properties *)

Example day2_time_reference :
  calculate_route_time reference [7; 4; 7] = Ok ((((0 + 35 / 60) + 8) + 35 / 60) + 1)%Q.
Proof. reflexivity. Qed.

Example day2_distance_reference :
  calculate_route_distance reference [7; 4; 7] = Ok 70.
Proof. reflexivity. Qed.

Example permutations_order :
  permutations [1; 2; 3] 2 = [[1; 2]; [1; 3]; [2; 1]; [2; 3]; [3; 1]; [3; 2]].
Proof. reflexivity. Qed.

(** ** Indexing *)

Lemma axis_index_ok (n : nat) (i : Z) :
  0 <= i < Z.of_nat n -> axis_index n i = Ok (Z.to_nat i).
Proof.
  intros [Hlo Hhi]. unfold axis_index.
  apply Z.leb_le in Hlo. apply Z.ltb_lt in Hhi.
  now rewrite Hlo, Hhi.
Qed.

Lemma getitem_ok {A : Type} (xs : list A) (i : Z) :
  0 <= i < Z.of_nat (List.length xs) -> exists x, getitem xs i = Ok x.
Proof.
  intros Hi. unfold getitem. rewrite (axis_index_ok _ _ Hi). simpl.
  destruct (nth_error xs (Z.to_nat i)) as [x|] eqn:E.
  - now exists x.
  - apply nth_error_None in E. lia.
Qed.

Lemma getitem_In {A : Type} (xs : list A) (i : Z) (x : A) :
  getitem xs i = Ok x -> In x xs.
Proof.
  unfold getitem, bind. destruct (axis_index _ i) as [k|]; [|discriminate].
  destruct (nth_error xs k) eqn:E; [|discriminate].
  intros [= <-]. eapply nth_error_In; eassumption.
Qed.

Section RouteMetrics.

Variable cfg : Config.
Hypothesis Hcover : tables_cover cfg.

Lemma getitem2_ok (a b : Z) :
  location cfg a -> location cfg b ->
  exists d, getitem2 (DISTANCES_KM cfg) a b = Ok d.
Proof.
  destruct Hcover as (Hrows & Hcols & _).
  unfold location. intros Ha Hb. unfold getitem2.
  destruct (getitem_ok (DISTANCES_KM cfg) a) as [row Hrow]; [lia|].
  rewrite Hrow. simpl.
  pose proof (getitem_In _ _ _ Hrow) as Hin.
  rewrite Forall_forall in Hcols. specialize (Hcols _ Hin).
  apply getitem_ok. lia.
Qed.

Lemma dwell_ok (b : Z) :
  location cfg b -> exists t, getitem (TIMES_AT_LOCATION cfg) b = Ok t.
Proof.
  destruct Hcover as (_ & _ & Htimes).
  unfold location. intros Hb. apply getitem_ok. lia.
Qed.

(** The loop adds, to whatever it starts from, the specification's sum. *)
Lemma route_time_loop_spec (route : list Z) :
  Forall (location cfg) route ->
  forall total_time,
  exists t, route_time_loop cfg route total_time = Ok t /\
            (t == total_time + routeTime cfg route)%Q.
Proof.
  induction route as [|a rest IH]; intros Hloc total_time.
  - exists total_time. split; [reflexivity|]. unfold routeTime. simpl. ring.
  - destruct rest as [|b rest'].
    + exists total_time. split; [reflexivity|]. unfold routeTime. simpl. ring.
    + inversion Hloc as [|? ? Ha Hrest]; subst.
      inversion Hrest as [|? ? Hb _]; subst.
      destruct (getitem2_ok a b Ha Hb) as [d Hd].
      destruct (dwell_ok b Hb) as [w Hw].
      destruct (IH Hrest
        (total_time + inject_Z d / inject_Z (Zpos (VELOCIDAD_PROMEDIO_KMH cfg))
         + inject_Z w)%Q) as (t & Ht & Heq).
      exists t. split.
      * change (route_time_loop cfg (a :: b :: rest') total_time)
          with (bind (getitem2 (DISTANCES_KM cfg) a b) (fun d =>
                bind (getitem (TIMES_AT_LOCATION cfg) b) (fun w =>
                route_time_loop cfg (b :: rest')
                  (total_time + inject_Z d / inject_Z (Zpos (VELOCIDAD_PROMEDIO_KMH cfg))
                   + inject_Z w)%Q))).
        rewrite Hd. simpl. rewrite Hw. simpl. exact Ht.
      * rewrite Heq. unfold routeTime, travelTime, distance, dwellTime.
        simpl legs. simpl map. simpl Qsum. rewrite Hd, Hw. ring.
Qed.

Lemma route_distance_loop_ok (route : list Z) :
  Forall (location cfg) route ->
  forall total_distance, exists d, route_distance_loop cfg route total_distance = Ok d.
Proof.
  induction route as [|a rest IH]; intros Hloc total_distance.
  - now exists total_distance.
  - destruct rest as [|b rest'].
    + now exists total_distance.
    + inversion Hloc as [|? ? Ha Hrest]; subst.
      inversion Hrest as [|? ? Hb _]; subst.
      destruct (getitem2_ok a b Ha Hb) as [d Hd].
      destruct (IH Hrest (wrap64 (total_distance + d))) as [d' Hd'].
      exists d'.
      change (route_distance_loop cfg (a :: b :: rest') total_distance)
        with (bind (getitem2 (DISTANCES_KM cfg) a b) (fun d =>
              route_distance_loop cfg (b :: rest') (wrap64 (total_distance + d)))).
      rewrite Hd. exact Hd'.
Qed.

Lemma calculate_route_time_ok (route : list Z) :
  Forall (location cfg) route -> exists t, calculate_route_time cfg route = Ok t.
Proof.
  intros Hloc. destruct (route_time_loop_spec route Hloc 0%Q) as (t & Ht & _).
  now exists t.
Qed.

Lemma calculate_route_distance_ok (route : list Z) :
  Forall (location cfg) route -> exists d, calculate_route_distance cfg route = Ok d.
Proof. intros Hloc. apply route_distance_loop_ok, Hloc. Qed.

Hypothesis Hnonneg : non_negative_tables cfg.

Lemma distance_nonneg (a b : Z) : 0 <= distance cfg a b.
Proof.
  unfold distance, getitem2, bind.
  destruct (getitem (DISTANCES_KM cfg) a) as [row|] eqn:Hrow; [|lia].
  destruct (getitem row b) as [d|] eqn:Hd; [|lia].
  destruct Hnonneg as [Hdist _].
  apply getitem_In in Hrow, Hd.
  rewrite Forall_forall in Hdist. specialize (Hdist _ Hrow).
  rewrite Forall_forall in Hdist. now apply Hdist.
Qed.

Lemma dwellTime_nonneg (b : Z) : 0 <= dwellTime cfg b.
Proof.
  unfold dwellTime.
  destruct (getitem (TIMES_AT_LOCATION cfg) b) as [t|] eqn:Ht; [|lia].
  destruct Hnonneg as [_ Htimes].
  apply getitem_In in Ht. rewrite Forall_forall in Htimes. now apply Htimes.
Qed.

Lemma leg_time_nonneg (a b : Z) :
  (0 <= travelTime cfg a b + inject_Z (dwellTime cfg b))%Q.
Proof.
  assert (0 <= travelTime cfg a b)%Q as Htravel.
  { unfold travelTime. apply Qle_shift_div_l; [reflexivity|].
    rewrite Qmult_0_l. change 0%Q with (inject_Z 0). rewrite <- Zle_Qle.
    apply distance_nonneg. }
  assert (0 <= inject_Z (dwellTime cfg b))%Q as Hdwell.
  { change 0%Q with (inject_Z 0). rewrite <- Zle_Qle. apply dwellTime_nonneg. }
  lra.
Qed.

End RouteMetrics.

Lemma legs_snoc (route : list Z) (x : Z) :
  route <> [] -> legs (route ++ [x]) = legs route ++ [(last route 0, x)].
Proof.
  induction route as [|a rest IH]; intros Hne; [congruence|].
  destruct rest as [|b rest']; [reflexivity|].
  change (legs ((a :: b :: rest') ++ [x])) with ((a, b) :: legs ((b :: rest') ++ [x])).
  rewrite IH by discriminate. reflexivity.
Qed.

Lemma Qsum_app (xs ys : list Q) : (Qsum (xs ++ ys) == Qsum xs + Qsum ys)%Q.
Proof.
  induction xs as [|x xs IH]; simpl.
  - ring.
  - rewrite IH. ring.
Qed.

Lemma reference_tables_cover : tables_cover reference.
Proof. unfold tables_cover. simpl. repeat split; try lia. repeat constructor; simpl; lia. Qed.

Lemma reference_well_formed : well_formed reference.
Proof. split; [exact reference_tables_cover|]. simpl. tauto. Qed.

Lemma reference_non_negative : non_negative_tables reference.
Proof. split; simpl; repeat constructor; lia. Qed.

(** ** Route metrics *)

Lemma route_time_loop_f64_running (cfg : Config) (route : list Z) :
  tables_cover cfg ->
  Forall (location cfg) route ->
  forall total_time,
    route_time_loop_f64 cfg route total_time =
    Ok (fold_left
          (fun total_time leg =>
             PrimFloat.add (PrimFloat.add total_time (travelTime_f64 cfg (fst leg) (snd leg)))
                           (float_of_int (dwellTime cfg (snd leg))))
          (legs route) total_time).
Proof.
  intros Hcover. induction route as [|a rest IH]; intros Hloc total_time; [reflexivity|].
  destruct rest as [|b rest']; [reflexivity|].
  inversion Hloc as [|? ? Ha Hrest]; subst.
  inversion Hrest as [|? ? Hb _]; subst.
  destruct (getitem2_ok cfg Hcover a b Ha Hb) as [d Hd].
  destruct (dwell_ok cfg Hcover b Hb) as [w Hw].
  change (route_time_loop_f64 cfg (a :: b :: rest') total_time)
    with (bind (getitem2 (DISTANCES_KM cfg) a b) (fun d =>
          bind (getitem (TIMES_AT_LOCATION cfg) b) (fun w =>
          route_time_loop_f64 cfg (b :: rest')
            (PrimFloat.add
               (PrimFloat.add total_time
                  (PrimFloat.div (float_of_int d)
                     (float_of_int (Zpos (VELOCIDAD_PROMEDIO_KMH cfg)))))
               (float_of_int w))))).
  rewrite Hd. unfold bind at 1. rewrite Hw. unfold bind.
  rewrite (IH Hrest).
  change (legs (a :: b :: rest')) with ((a, b) :: legs (b :: rest')).
  simpl fold_left.
  assert (travelTime_f64 cfg a b
          = PrimFloat.div (float_of_int d)
              (float_of_int (Zpos (VELOCIDAD_PROMEDIO_KMH cfg)))) as ->
    by (unfold travelTime_f64, distance; now rewrite Hd).
  assert (dwellTime cfg b = w) as -> by (unfold dwellTime; now rewrite Hw).
  reflexivity.
Qed.

Lemma calculate_route_time_f64_ok (cfg : Config) (route : list Z) :
  tables_cover cfg -> Forall (location cfg) route ->
  exists t, calculate_route_time_f64 cfg route = Ok t.
Proof.
  intros Hcover Hloc. eexists.
  apply (route_time_loop_f64_running cfg route Hcover Hloc).
Qed.

(** Read in exact arithmetic, the loop returns the sum of the
    specification: over the consecutive pairs, distance / speed + dwell
    time. *)
Lemma exact_reading_sums_legs (cfg : Config) (route : list Z) :
  tables_cover cfg ->
  Forall (location cfg) route ->
  exists t, calculate_route_time cfg route = Ok t /\
            (t == Qsum (map (fun leg =>
                         inject_Z (distance cfg (fst leg) (snd leg))
                           / inject_Z (Zpos (VELOCIDAD_PROMEDIO_KMH cfg))
                         + inject_Z (dwellTime cfg (snd leg)))
                       (legs route)))%Q.
Proof.
  intros Hcover Hloc.
  destruct (route_time_loop_spec cfg Hcover route Hloc 0%Q) as (t & Ht & Heq).
  exists t. split; [exact Ht|].
  assert (t == routeTime cfg route)%Q as H by (rewrite Heq; ring).
  exact H.
Qed.




Example day2_time_value :
  exists t, calculate_route_time reference [7; 4; 7] = Ok t /\
            (t == 35 / 60 + 8 + 35 / 60 + 1)%Q /\ (t == 61 # 6)%Q.
Proof. eexists. split; [reflexivity|]. split; reflexivity. Qed.

(** On the tables of the script, appending a stop never decreases the
    binary64 number the script computes either: for every route of up to four
    entries and every stop, and for the three routes of every combination of
    the enumeration, cut anywhere. *)
Example appending_a_stop_on_binary64 :
  forallb (fun route => forallb (appending_keeps_time_f64 reference route) (range 8))
          (flat_map (routes_of_length 8) [1; 2; 3; 4]%nat) = true /\
  forallb (fun routes =>
             forallb (fun route =>
                        forallb (fun k => appending_keeps_time_f64 reference
                                            (firstn k route) (nth k route 0))
                                (seq 1 (List.length route - 1)))
                     routes)
          (candidates reference) = true.
Proof. split; vm_compute; reflexivity. Qed.



(** C10. On a route with fewer than two locations, whatever its entries,
    [calculate_route_time] and [calculate_route_distance] both return 0: the
    loops run zero times and no table is read. *)
Theorem short_routes_return_zero (cfg : Config) (route : list Z) :
  (List.length route < 2)%nat ->
  calculate_route_time cfg route = Ok 0%Q /\
  calculate_route_distance cfg route = Ok 0.
Proof.
  intros Hlen. destruct route as [|a [|b rest]].
  - split; reflexivity.
  - split; reflexivity.
  - simpl in Hlen. lia.
Qed.

Lemma short_routes_return_zero_witness :
  calculate_route_time reference [4] = Ok 0%Q /\
  calculate_route_distance reference [4] = Ok 0.
Proof. apply (short_routes_return_zero reference [4]). simpl; lia. Defined.

(** C9. The distance table of the reference instance is symmetric and has
    a zero diagonal, for all indices 0..7; so is [distance] on them. *)
Theorem reference_distances_symmetric (a b : Z) :
  0 <= a < 8 -> 0 <= b < 8 ->
  getitem2 (DISTANCES_KM reference) a b = getitem2 (DISTANCES_KM reference) b a /\
  getitem2 (DISTANCES_KM reference) a a = Ok 0 /\
  distance reference a b = distance reference b a /\
  distance reference a a = 0.
Proof.
  intros Ha Hb.
  assert (a = 0 \/ a = 1 \/ a = 2 \/ a = 3 \/ a = 4 \/ a = 5 \/ a = 6 \/ a = 7) as Ea by lia.
  assert (b = 0 \/ b = 1 \/ b = 2 \/ b = 3 \/ b = 4 \/ b = 5 \/ b = 6 \/ b = 7) as Eb by lia.
  clear Ha Hb.
  repeat (destruct Ea as [->|Ea]); try subst a;
    repeat (destruct Eb as [->|Eb]); try subst b;
    repeat split; reflexivity.
Qed.

Lemma reference_distances_symmetric_witness :
  getitem2 (DISTANCES_KM reference) 2 6 = getitem2 (DISTANCES_KM reference) 6 2 /\
  getitem2 (DISTANCES_KM reference) 2 2 = Ok 0 /\
  distance reference 2 6 = distance reference 6 2 /\
  distance reference 2 2 = 0.
Proof. apply (reference_distances_symmetric 2 6); lia. Defined.

(** ** Loops *)

Lemma for_each_app {A : Type} (xs ys : list A) (body : A -> state -> flow) (s : state) :
  for_each (xs ++ ys) body s =
  match for_each xs body s with
  | Next s' => for_each ys body s'
  | stop => stop
  end.
Proof.
  revert s. induction xs as [|x xs IH]; intros s; simpl; [reflexivity|].
  destruct (body x s); auto.
Qed.

Lemma for_each_flat_map {A B : Type} (f : A -> list B) (xs : list A)
    (body : B -> state -> flow) (s : state) :
  for_each (flat_map f xs) body s = for_each xs (fun x => for_each (f x) body) s.
Proof.
  revert s. induction xs as [|x xs IH]; intros s; simpl; [reflexivity|].
  rewrite for_each_app. destruct (for_each (f x) body s); auto.
Qed.

Lemma for_each_map {A B : Type} (f : A -> B) (xs : list A)
    (body : B -> state -> flow) (s : state) :
  for_each (map f xs) body s = for_each xs (fun x => body (f x)) s.
Proof.
  revert s. induction xs as [|x xs IH]; intros s; simpl; [reflexivity|].
  destruct (body (f x) s); auto.
Qed.

Lemma for_each_ext {A : Type} (xs : list A) (body body' : A -> state -> flow) (s : state) :
  (forall x s, body x s = body' x s) ->
  for_each xs body s = for_each xs body' s.
Proof.
  intros Hext. revert s. induction xs as [|x xs IH]; intros s; simpl; [reflexivity|].
  rewrite Hext. destruct (body' x s); auto.
Qed.

(** The three nested loops are one loop over [combinations]. *)
Lemma search_combinations (cfg : Config) (a h n : Z) (s : state) :
  search cfg a h n s =
  for_each (combinations (places_to_visit cfg a h n))
           (fun c => combination cfg a h n (fst c) (snd c)) s.
Proof.
  unfold search, combinations.
  rewrite for_each_flat_map. apply for_each_ext. intros day1_size s1.
  rewrite for_each_flat_map. apply for_each_ext. intros day1_places s2.
  rewrite for_each_map. reflexivity.
Qed.

(** A loop that runs to its end keeps an invariant of the elements passed
    so far. *)
Lemma for_each_invariant {A : Type} (I : list A -> state -> Prop)
    (body : A -> state -> flow) (xs : list A) :
  (forall pre x s s', I pre s -> body x s = Next s' -> I (pre ++ [x]) s') ->
  forall pre s s', I pre s -> for_each xs body s = Next s' -> I (pre ++ xs) s'.
Proof.
  intros Hstep. induction xs as [|x xs IH]; intros pre s s' HI Hrun; simpl in Hrun.
  - injection Hrun as <-. now rewrite app_nil_r.
  - destruct (body x s) as [s1| |] eqn:Hbody; try discriminate.
    replace (pre ++ x :: xs) with ((pre ++ [x]) ++ xs) by now rewrite <- app_assoc.
    eapply IH; [|exact Hrun]. eapply Hstep; eassumption.
Qed.

(** A loop that returns does so in the body of one of its elements. *)
Lemma for_each_return {A : Type} (body : A -> state -> flow) (xs : list A) :
  forall s v s', for_each xs body s = Return v s' ->
  exists pre x post s1,
    xs = pre ++ x :: post /\ for_each pre body s = Next s1 /\ body x s1 = Return v s'.
Proof.
  induction xs as [|x xs IH]; intros s v s' Hrun; simpl in Hrun; [discriminate|].
  destruct (body x s) as [s1|v1 s1|] eqn:Hbody; try discriminate.
  - destruct (IH _ _ _ Hrun) as (pre & y & post & s2 & -> & Hpre & Hy).
    exists (x :: pre), y, post, s2. repeat split; auto.
    simpl. now rewrite Hbody.
  - injection Hrun as <- <-. exists [], x, xs, s. repeat split; auto.
Qed.

(** ** One pass through the innermost loop *)

Section Combination.

Variable cfg : Config.
Variables a h n : Z.

Lemma exceeds_false (route : list Z) (t : Q) :
  calculate_route_time cfg route = Ok t -> exceeds cfg t = false ->
  within_ceiling cfg route.
Proof.
  intros Ht He. exists t. split; [exact Ht|].
  unfold exceeds in He. apply negb_false_iff in He. now apply Qle_bool_iff.
Qed.

Lemma exceeds_true (route : list Z) (t : Q) :
  calculate_route_time cfg route = Ok t -> exceeds cfg t = true ->
  ~ within_ceiling cfg route.
Proof.
  intros Ht He (t' & Ht' & Hle). rewrite Ht in Ht'. injection Ht' as <-.
  unfold exceeds in He. apply negb_true_iff in He.
  apply Qle_bool_iff in Hle. congruence.
Qed.

Lemma exceeds_lt (t : Q) :
  exceeds cfg t = true <-> (inject_Z (MAX_TIME_PER_DAY cfg) < t)%Q.
Proof.
  unfold exceeds. rewrite negb_true_iff. split.
  - intros He. apply Qnot_le_lt. intros Hle. apply Qle_bool_iff in Hle. congruence.
  - intros Hlt. destruct (Qle_bool t (inject_Z (MAX_TIME_PER_DAY cfg))) eqn:E; [|reflexivity].
    apply Qle_bool_iff in E. exfalso. eapply Qlt_not_le; eassumption.
Qed.

(** A pass that falls through either skipped the combination, which is then
    not feasible, or compared its total with the recorded best. *)
Lemma combination_next (c : list Z * list Z) (s s' : state) :
  combination cfg a h n (fst c) (snd c) s = Next s' ->
  (~ feasible cfg (day_assignment a h n c) /\ s' = enter c s) \/
  (exists d,
     feasible cfg (day_assignment a h n c) /\
     total_distance cfg (day_assignment a h n c) = Ok d /\
     ((lt_bound d (best_total_distance s) = true /\
       s' = record (day_assignment a h n c) d (enter c s)) \/
      (lt_bound d (best_total_distance s) = false /\ s' = enter c s))).
Proof.
  destruct c as [day1_places day3_places].
  unfold combination, day_assignment, total_distance, try. simpl fst. simpl snd.
  set (day1_route := [a] ++ day1_places ++ [h]).
  set (day3_route := [h] ++ day3_places ++ [a]).
  set (s1 := enter (day1_places, day3_places) s).
  destruct (calculate_route_time cfg day1_route) as [t1|] eqn:H1; [|discriminate].
  destruct (exceeds cfg t1) eqn:E1.
  { intros [= <-]. left. split; [|reflexivity].
    intros Hf. inversion Hf as [|? ? Hw _]; subst.
    exact (exceeds_true _ _ H1 E1 Hw). }
  destruct (calculate_route_time cfg [h; n; h]) as [t2|] eqn:H2; [|discriminate].
  destruct (exceeds cfg t2) eqn:E2; [discriminate|].
  destruct (calculate_route_time cfg day3_route) as [t3|] eqn:H3; [|discriminate].
  destruct (exceeds cfg t3) eqn:E3.
  { intros [= <-]. left. split; [|reflexivity].
    intros Hf. inversion Hf as [|? ? _ Hf2]; subst.
    inversion Hf2 as [|? ? _ Hf3]; subst.
    inversion Hf3 as [|? ? Hw _]; subst.
    exact (exceeds_true _ _ H3 E3 Hw). }
  destruct (calculate_route_distance cfg day1_route) as [d1|]; [|discriminate].
  destruct (calculate_route_distance cfg [h; n; h]) as [d2|]; [|discriminate].
  destruct (calculate_route_distance cfg day3_route) as [d3|]; [|discriminate].
  simpl bind.
  assert (feasible cfg [day1_route; [h; n; h]; day3_route]) as Hf.
  { repeat constructor; eapply exceeds_false; eassumption. }
  change (best_total_distance s1) with (best_total_distance s).
  destruct (lt_bound _ (best_total_distance s)) eqn:Hlt; intros [= <-]; right;
    eexists; (split; [exact Hf|]); (split; [reflexivity|]); [left|right]; auto.
Qed.

(** A pass that returns found Day 1 within the ceiling and the fixed day
    over it; it prints and returns [None]. *)
Lemma combination_return (c : list Z * list Z) (s : state) (v : option (list (list Z))) (s' : state) :
  combination cfg a h n (fst c) (snd c) s = Return v s' ->
  v = None /\ s' = print error_day2 (enter c s) /\
  within_ceiling cfg ([a] ++ fst c ++ [h]) /\ ~ within_ceiling cfg [h; n; h].
Proof.
  destruct c as [day1_places day3_places].
  unfold combination, try. simpl fst. simpl snd.
  set (day1_route := [a] ++ day1_places ++ [h]).
  set (day3_route := [h] ++ day3_places ++ [a]).
  destruct (calculate_route_time cfg day1_route) as [t1|] eqn:H1; [|discriminate].
  destruct (exceeds cfg t1) eqn:E1; [discriminate|].
  destruct (calculate_route_time cfg [h; n; h]) as [t2|] eqn:H2; [|discriminate].
  destruct (exceeds cfg t2) eqn:E2.
  { intros [= <- <-]. repeat split.
    - eapply exceeds_false; eassumption.
    - eapply exceeds_true; eassumption. }
  destruct (calculate_route_time cfg day3_route) as [t3|]; [|discriminate].
  destruct (exceeds cfg t3); [discriminate|].
  destruct (calculate_route_distance cfg day1_route) as [d1|]; [|discriminate].
  destruct (calculate_route_distance cfg [h; n; h]) as [d2|]; [|discriminate].
  destruct (calculate_route_distance cfg day3_route) as [d3|]; [|discriminate].
  destruct (lt_bound _ _); discriminate.
Qed.

End Combination.

(** ** The invariant of the search *)

Lemma search_invariant_step (cfg : Config) (a h n : Z)
    (pre : list (list Z * list Z)) (x : list Z * list Z) (s s' : state) :
  search_invariant cfg a h n pre s ->
  combination cfg a h n (fst x) (snd x) s = Next s' ->
  search_invariant cfg a h n (pre ++ [x]) s'.
Proof.
  intros (Hex & Hout & Hbest) Hstep.
  apply combination_next in Hstep.
  destruct Hstep as [[Hnot ->] | (dx & Hfx & Hdx & [[Hlt ->] | [Hlt ->]])].
  - (* skipped *)
    split; [simpl; now rewrite Hex|]. split; [exact Hout|]. simpl.
    destruct (best_routes_combination s) as [routes|].
    + destruct Hbest as [(before & after & d & Hpre & Hf & Hd & Hb & Ha) Hrec].
      split; [|exact Hrec].
      exists before, (after ++ [day_assignment a h n x]), d.
      rewrite map_app, Hpre. simpl. rewrite <- app_assoc. simpl.
      repeat split; auto. intros r Hr Hfr.
      apply in_app_or in Hr. destruct Hr as [Hr | [<- | []]]; [now apply Ha|].
      contradiction.
    + destruct Hbest as [Hinf Hnone]. split; [exact Hinf|].
      intros c Hc. apply in_app_or in Hc. destruct Hc as [Hc | [<- | []]]; auto.
  - (* recorded as the new best *)
    split; [simpl; now rewrite Hex|]. split; [exact Hout|]. simpl.
    split; [|now exists dx].
    exists (map (day_assignment a h n) pre), [], dx.
    rewrite map_app. simpl. repeat split; auto; [|intros r []].
    intros r Hr Hfr.
    destruct (best_routes_combination s) as [routes|].
    + destruct Hbest as [(before & after & d & Hpre & Hf & Hd & Hb & Ha) (d0 & Hd0 & Hrec)].
      rewrite Hd in Hd0. injection Hd0 as <-.
      rewrite Hrec in Hlt. simpl in Hlt. apply Z.ltb_lt in Hlt.
      rewrite Hpre in Hr. apply in_app_or in Hr. destruct Hr as [Hr | [<- | Hr]].
      * destruct (Hb r Hr Hfr) as (d' & Hd' & Hlt'). exists d'. split; [exact Hd'|lia].
      * exists d. split; [exact Hd|lia].
      * destruct (Ha r Hr Hfr) as (d' & Hd' & Hle'). exists d'. split; [exact Hd'|lia].
    + destruct Hbest as [_ Hnone]. apply in_map_iff in Hr.
      destruct Hr as (c & <- & Hc). exfalso. exact (Hnone c Hc Hfr).
  - (* not better than the recorded best *)
    split; [simpl; now rewrite Hex|]. split; [exact Hout|]. simpl.
    destruct (best_routes_combination s) as [routes|].
    + destruct Hbest as [(before & after & d & Hpre & Hf & Hd & Hb & Ha) (d0 & Hd0 & Hrec)].
      split; [|now exists d0].
      rewrite Hd in Hd0. injection Hd0 as <-.
      rewrite Hrec in Hlt. simpl in Hlt. apply Z.ltb_ge in Hlt.
      exists before, (after ++ [day_assignment a h n x]), d.
      rewrite map_app, Hpre. simpl. rewrite <- app_assoc. simpl.
      repeat split; auto. intros r Hr Hfr.
      apply in_app_or in Hr. destruct Hr as [Hr | [<- | []]]; [now apply Ha|].
      exists dx. split; [exact Hdx|lia].
    + destruct Hbest as [Hinf _]. rewrite Hinf in Hlt. discriminate.
Qed.

Lemma search_invariant_initial (cfg : Config) (a h n : Z) :
  search_invariant cfg a h n [] initial.
Proof. repeat split. intros c []. Qed.

Lemma search_next (cfg : Config) (a h n : Z) (s : state) :
  search cfg a h n initial = Next s ->
  search_invariant cfg a h n (combinations (places_to_visit cfg a h n)) s.
Proof.
  rewrite search_combinations. intros Hrun.
  apply (for_each_invariant (search_invariant cfg a h n)
           (fun c => combination cfg a h n (fst c) (snd c))
           (combinations (places_to_visit cfg a h n))
           (search_invariant_step cfg a h n) [] initial s
           (search_invariant_initial cfg a h n) Hrun).
Qed.

Lemma search_return (cfg : Config) (a h n : Z) (v : option (list (list Z))) (s : state) :
  search cfg a h n initial = Return v s ->
  v = None /\ ~ within_ceiling cfg [h; n; h] /\
  exists pre x post,
    combinations (places_to_visit cfg a h n) = pre ++ x :: post /\
    examined s = pre ++ [x] /\
    within_ceiling cfg ([a] ++ fst x ++ [h]).
Proof.
  rewrite search_combinations. intros Hrun.
  apply for_each_return in Hrun.
  destruct Hrun as (pre & x & post & s1 & Hsplit & Hpre & Hx).
  apply combination_return in Hx. destruct Hx as (-> & -> & Hday1 & Hday2).
  split; [reflexivity|]. split; [exact Hday2|].
  exists pre, x, post. split; [exact Hsplit|]. split; [|exact Hday1].
  pose proof (for_each_invariant (search_invariant cfg a h n) _ pre
                (search_invariant_step cfg a h n) [] initial s1
                (search_invariant_initial cfg a h n) Hpre) as (Hex & _).
  simpl. now rewrite Hex.
Qed.

(** The three ways a run of [find_best_routes] can end without raising. *)
Lemma find_best_routes_inv (cfg : Config) (v : option (list (list Z))) (s : state) :
  find_best_routes cfg = Ok (v, s) ->
  exists a h n,
    anchors cfg = Ok (a, h, n) /\
    ((search cfg a h n initial = Next s /\ v = best_routes_combination s) \/
     (search cfg a h n initial = Return v s)).
Proof.
  unfold find_best_routes, anchors, bind.
  destruct (get_location_index cfg "Aeropuerto") as [a|]; [|discriminate].
  destruct (get_location_index cfg "Hotel") as [h|]; [|discriminate].
  destruct (get_location_index cfg "NASA") as [n|]; [|discriminate].
  destruct (search cfg a h n initial) as [s1|v1 s1|] eqn:Hrun; [| |discriminate].
  - intros [= <- <-]. exists a, h, n. split; [reflexivity|]. left. now split.
  - intros [= <- <-]. exists a, h, n. split; [reflexivity|]. now right.
Qed.

Lemma find_best_routes_some (cfg : Config) (routes : list (list Z)) (s : state) :
  find_best_routes cfg = Ok (Some routes, s) ->
  first_of_the_best cfg (candidates cfg) routes /\
  examined s = enumeration cfg.
Proof.
  intros Hrun. apply find_best_routes_inv in Hrun.
  destruct Hrun as (a & h & n & Hanchors & [[Hnext Hv] | Hret]).
  - apply search_next in Hnext. destruct Hnext as (Hex & _ & Hbest).
    rewrite <- Hv in Hbest. destruct Hbest as [Hfirst _].
    unfold candidates, enumeration, free_locations. rewrite Hanchors.
    split; [exact Hfirst|exact Hex].
  - apply search_return in Hret. destruct Hret as [Hnone _]. discriminate.
Qed.

(** ** What the enumeration contains *)

Lemma picks_perm {A : Type} (pool : list A) (x : A) (rest : list A) :
  In (x, rest) (picks pool) -> Permutation (x :: rest) pool.
Proof.
  revert x rest. induction pool as [|y pool IH]; intros x rest Hin; simpl in Hin.
  - contradiction.
  - destruct Hin as [[= <- <-] | Hin]; [reflexivity|].
    apply in_map_iff in Hin. destruct Hin as ([x' rest'] & [= <- <-] & Hin).
    simpl. rewrite perm_swap. constructor. now apply IH.
Qed.

Lemma picks_split {A : Type} (l1 l2 : list A) (x : A) :
  In (x, l1 ++ l2) (picks (l1 ++ x :: l2)).
Proof.
  induction l1 as [|y l1 IH]; simpl.
  - now left.
  - right. apply in_map_iff. exists (x, l1 ++ l2). split; [reflexivity|exact IH].
Qed.

(** An arrangement has the length asked for and takes its elements from
    the pool, each position at most once. *)
Lemma permutations_sound {A : Type} (r : nat) :
  forall (pool p : list A), In p (permutations pool r) ->
  List.length p = r /\ exists rest, Permutation (p ++ rest) pool.
Proof.
  induction r as [|r IH]; intros pool p Hin; simpl in Hin.
  - destruct Hin as [<- | []]. split; [reflexivity|]. now exists pool.
  - apply in_flat_map in Hin. destruct Hin as ([x rst] & Hpick & Hin).
    apply in_map_iff in Hin. destruct Hin as (p' & <- & Hp'). simpl in *.
    destruct (IH _ _ Hp') as (Hlen & rest & Hperm).
    split; [now rewrite Hlen|]. exists rest.
    apply picks_perm in Hpick. rewrite <- Hpick. now constructor.
Qed.

(** Every such arrangement is produced. *)
Lemma permutations_complete {A : Type} (p : list A) :
  forall (pool rest : list A), Permutation (p ++ rest) pool ->
  In p (permutations pool (List.length p)).
Proof.
  induction p as [|x p IH]; intros pool rest Hperm; simpl.
  - now left.
  - assert (In x pool) as Hx.
    { eapply Permutation_in; [exact Hperm|]. now left. }
    apply in_split in Hx. destruct Hx as (l1 & l2 & ->).
    simpl in Hperm. apply Permutation_cons_app_inv in Hperm.
    apply in_flat_map. exists (x, l1 ++ l2). split; [apply picks_split|].
    simpl. apply in_map. eapply IH. exact Hperm.
Qed.

Lemma permutations_full {A : Type} (pool p : list A) :
  In p (permutations pool (List.length pool)) <-> Permutation p pool.
Proof.
  split.
  - intros Hin. apply permutations_sound in Hin. destruct Hin as (Hlen & rest & Hperm).
    pose proof (Permutation_length Hperm) as Hl. rewrite length_app in Hl.
    assert (rest = []) as -> by (destruct rest; [reflexivity|simpl in Hl; lia]).
    now rewrite app_nil_r in Hperm.
  - intros Hperm. rewrite <- (Permutation_length Hperm).
    apply (permutations_complete p pool []). now rewrite app_nil_r.
Qed.

Lemma mem_In (x : Z) (xs : list Z) : mem x xs = true <-> In x xs.
Proof.
  unfold mem. rewrite existsb_exists. split.
  - intros (y & Hy & Heq). apply Z.eqb_eq in Heq. now subst.
  - intros Hin. exists x. split; [exact Hin|apply Z.eqb_refl].
Qed.

Lemma mem_not_In (x : Z) (xs : list Z) : mem x xs = false <-> ~ In x xs.
Proof.
  rewrite <- mem_In. destruct (mem x xs); split; congruence.
Qed.

Lemma range_In (n : nat) (i : Z) : In i (range n) <-> 0 <= i < Z.of_nat n.
Proof.
  unfold range. rewrite in_map_iff. split.
  - intros (k & <- & Hk). apply in_seq in Hk. lia.
  - intros Hi. exists (Z.to_nat i). split; [lia|]. apply in_seq. lia.
Qed.

Lemma range_NoDup (n : nat) : NoDup (range n).
Proof.
  unfold range. generalize 0%nat. induction n as [|n IH]; intros start; simpl.
  - constructor.
  - constructor; [|apply IH].
    rewrite in_map_iff. intros (k & Hk & Hin). apply in_seq in Hin. lia.
Qed.

(** The places to visit are the locations other than the three anchors,
    each once. *)
Lemma places_to_visit_In (cfg : Config) (a h n i : Z) :
  In i (places_to_visit cfg a h n) <-> location cfg i /\ i <> a /\ i <> h /\ i <> n.
Proof.
  unfold places_to_visit, location. rewrite filter_In, range_In, negb_true_iff, mem_not_In.
  simpl. intuition congruence.
Qed.

Lemma places_to_visit_NoDup (cfg : Config) (a h n : Z) : NoDup (places_to_visit cfg a h n).
Proof. apply NoDup_filter, range_NoDup. Qed.

(** A selection and what it leaves make up the places. *)
Lemma day3_places_set_perm (places day1_places : list Z) :
  NoDup places -> NoDup day1_places -> incl day1_places places ->
  Permutation (day1_places ++ day3_places_set places day1_places) places.
Proof.
  intros Hplaces Hday1 Hincl. unfold day3_places_set.
  apply NoDup_Permutation; [|exact Hplaces|].
  - apply NoDup_app; [exact Hday1|now apply NoDup_filter|].
    intros x Hx Hx'. apply filter_In in Hx'. destruct Hx' as [_ Hx'].
    apply negb_true_iff, mem_not_In in Hx'. contradiction.
  - intros x. rewrite in_app_iff, filter_In, negb_true_iff, mem_not_In. split.
    + intros [Hx | [Hx _]]; auto.
    + intros Hx. destruct (mem x day1_places) eqn:E.
      * left. now apply mem_In.
      * right. split; [exact Hx|]. now apply mem_not_In.
Qed.

(** The combinations are the ordered selections of 1 to |places| - 1 places
    for Day 1, each with every ordering of the places it leaves for Day 3. *)
Lemma combinations_In (places day1_places day3_places : list Z) :
  NoDup places ->
  In (day1_places, day3_places) (combinations places) <->
  (1 <= List.length day1_places <= List.length places - 1)%nat /\
  NoDup day1_places /\ incl day1_places places /\
  Permutation day3_places (day3_places_set places day1_places).
Proof.
  intros Hplaces. unfold combinations. rewrite in_flat_map. split.
  - intros (k & Hk & Hin). apply in_seq in Hk.
    apply in_flat_map in Hin. destruct Hin as (d1 & Hd1 & Hin).
    apply in_map_iff in Hin. destruct Hin as (d3 & [= <- <-] & Hd3).
    apply permutations_sound in Hd1. destruct Hd1 as (Hlen & rest & Hperm).
    assert (NoDup (d1 ++ rest)) as Hnd.
    { eapply Permutation_NoDup; [symmetry; exact Hperm|exact Hplaces]. }
    split; [lia|]. split; [now apply NoDup_app_remove_r in Hnd|]. split.
    + intros x Hx. eapply Permutation_in; [exact Hperm|]. apply in_app_iff. now left.
    + now apply permutations_full.
  - intros (Hlen & Hnd & Hincl & Hperm).
    exists (List.length day1_places). split; [apply in_seq; lia|].
    apply in_flat_map. exists day1_places. split.
    + eapply permutations_complete. apply day3_places_set_perm; eassumption.
    + apply in_map_iff. exists day3_places. split; [reflexivity|].
      now apply permutations_full.
Qed.

(** Day 1 and Day 3 of a combination share out the places: every place is
    on exactly one of the two days, once, and each day has at least one. *)
Lemma combinations_partition (places day1_places day3_places : list Z) :
  NoDup places ->
  In (day1_places, day3_places) (combinations places) ->
  Permutation (day1_places ++ day3_places) places /\
  NoDup (day1_places ++ day3_places) /\
  (1 <= List.length day1_places <= List.length places - 1)%nat /\
  (1 <= List.length day3_places <= List.length places - 1)%nat /\
  (List.length day1_places + List.length day3_places = List.length places)%nat.
Proof.
  intros Hplaces Hin. apply combinations_In in Hin; [|exact Hplaces].
  destruct Hin as (Hlen & Hnd & Hincl & Hperm).
  assert (Permutation (day1_places ++ day3_places) places) as Hall.
  { rewrite Hperm. now apply day3_places_set_perm. }
  split; [exact Hall|]. split.
  - eapply Permutation_NoDup; [symmetry; exact Hall|exact Hplaces].
  - pose proof (Permutation_length Hall) as Hl. rewrite length_app in Hl. lia.
Qed.

(** ** What a run has examined and what it returns *)

Lemma intermediate_day (x y : Z) (stops : list Z) :
  intermediate ([x] ++ stops ++ [y]) = stops.
Proof. unfold intermediate. simpl. apply removelast_last. Qed.

(** The combinations a run has entered are a prefix of the enumeration. *)
Lemma examined_prefix (cfg : Config) (v : option (list (list Z))) (s : state) :
  find_best_routes cfg = Ok (v, s) ->
  exists post, enumeration cfg = examined s ++ post.
Proof.
  intros Hrun. apply find_best_routes_inv in Hrun.
  destruct Hrun as (a & h & n & Hanchors & [[Hnext _] | Hret]);
    unfold enumeration, free_locations; rewrite Hanchors.
  - apply search_next in Hnext. destruct Hnext as (Hex & _).
    exists []. now rewrite Hex, app_nil_r.
  - apply search_return in Hret.
    destruct Hret as (_ & _ & pre & x & post & Hsplit & Hex & _).
    exists post. rewrite Hsplit, Hex, <- app_assoc. reflexivity.
Qed.

Lemma examined_enumerated (cfg : Config) (v : option (list (list Z))) (s : state)
    (c : list Z * list Z) :
  find_best_routes cfg = Ok (v, s) -> In c (examined s) -> In c (enumeration cfg).
Proof.
  intros Hrun Hc. destruct (examined_prefix cfg v s Hrun) as [post ->].
  apply in_app_iff. now left.
Qed.

(** What is returned is built from a combination of the enumeration. *)
Lemma returned_enumerated (cfg : Config) (routes : list (list Z)) (s : state) :
  find_best_routes cfg = Ok (Some routes, s) ->
  exists a h n c,
    anchors cfg = Ok (a, h, n) /\ In c (enumeration cfg) /\
    routes = day_assignment a h n c.
Proof.
  intros Hrun. pose proof (find_best_routes_some cfg routes s Hrun) as [Hfirst _].
  destruct Hfirst as (before & after & d & Hsplit & _).
  apply find_best_routes_inv in Hrun. destruct Hrun as (a & h & n & Hanchors & _).
  unfold candidates in Hsplit. rewrite Hanchors in Hsplit.
  assert (In routes (map (day_assignment a h n) (enumeration cfg))) as Hin.
  { rewrite Hsplit. apply in_app_iff. right. now left. }
  apply in_map_iff in Hin. destruct Hin as (c & <- & Hc).
  now exists a, h, n, c.
Qed.

Lemma enumeration_shares_out (cfg : Config) (a h n : Z) (c : list Z * list Z) :
  anchors cfg = Ok (a, h, n) -> In c (enumeration cfg) ->
  shares_out_free_locations cfg (day_assignment a h n c) /\
  both_days_have_a_stop cfg (day_assignment a h n c).
Proof.
  intros Hanchors Hc. destruct c as [d1 d3].
  unfold enumeration in Hc.
  assert (NoDup (free_locations cfg)) as Hnd.
  { unfold free_locations. rewrite Hanchors. apply places_to_visit_NoDup. }
  destruct (combinations_partition _ d1 d3 Hnd Hc) as (Hperm & Hnodup & Hl1 & Hl3 & _).
  split; exists ([a] ++ d1 ++ [h]), [h; n; h], ([h] ++ d3 ++ [a]);
    (split; [reflexivity|]); rewrite !intermediate_day; auto.
Qed.

(** ** The search *)

(** The run on the reference instance. *)
Lemma reference_run : find_best_routes reference = Ok (Some reference_routes, reference_final).
Proof. vm_compute. reflexivity. Qed.

(** The DayAssignments of the enumeration are all the splits: every
    ordered selection of 1 to |free| - 1 free locations for Day 1 with every
    ordering of the others for Day 3. *)
Lemma candidates_complete (cfg : Config) (a h n : Z) (day1_places day3_places : list Z) :
  anchors cfg = Ok (a, h, n) ->
  (1 <= List.length day1_places <= List.length (free_locations cfg) - 1)%nat ->
  NoDup day1_places ->
  incl day1_places (free_locations cfg) ->
  Permutation day3_places (day3_places_set (free_locations cfg) day1_places) ->
  In (day_assignment a h n (day1_places, day3_places)) (candidates cfg).
Proof.
  intros Hanchors Hlen Hnd Hincl Hperm.
  unfold candidates. rewrite Hanchors. apply in_map. unfold enumeration.
  apply combinations_In; [|auto].
  unfold free_locations. rewrite Hanchors. apply places_to_visit_NoDup.
Qed.



(** When nothing is returned, nothing of the enumeration is feasible. *)
Lemma find_best_routes_none (cfg : Config) (s : state) :
  find_best_routes cfg = Ok (None, s) ->
  forall routes, In routes (candidates cfg) -> ~ feasible cfg routes.
Proof.
  intros Hrun routes Hin Hf.
  destruct (find_best_routes_inv cfg None s Hrun) as (a & h & n & Hanchors & Hend).
  unfold candidates, enumeration, free_locations in Hin. rewrite Hanchors in Hin.
  apply in_map_iff in Hin. destruct Hin as (c & <- & Hc).
  destruct Hend as [[Hnext Hv] | Hret].
  - apply search_next in Hnext. destruct Hnext as (_ & _ & Hbest).
    rewrite <- Hv in Hbest. destruct Hbest as [_ Hnone]. exact (Hnone c Hc Hf).
  - apply search_return in Hret. destruct Hret as (_ & Hday2 & _).
    unfold day_assignment in Hf.
    inversion Hf as [|? ? _ Hf2]; subst. inversion Hf2 as [|? ? Hw _]; subst.
    exact (Hday2 Hw).
Qed.

(** One pass of the innermost loop skips a combination only when one of
    its three route times is over the ceiling.  When the three are within it,
    equal to it or not, the total is compared with the recorded best, which
    is then at most that total; when one is over it, the recorded best is
    left as it was. *)
Lemma skipped_only_when_over_ceiling (cfg : Config) (a h n : Z)
    (c : list Z * list Z) (s0 s1 : state) :
  combination cfg a h n (fst c) (snd c) s0 = Next s1 ->
  (feasible cfg (day_assignment a h n c) ->
   exists d recorded,
     total_distance cfg (day_assignment a h n c) = Ok d /\
     best_total_distance s1 = Finite recorded /\
     recorded <= d) /\
  (~ feasible cfg (day_assignment a h n c) ->
   best_routes_combination s1 = best_routes_combination s0 /\
   best_total_distance s1 = best_total_distance s0).
Proof.
  intros Hstep. apply combination_next in Hstep.
  destruct Hstep as [[Hnot ->] | (d & Hf & Hd & [[Hlt ->] | [Hlt ->]])].
  - split; [contradiction|]. intros _. now split.
  - split; [|contradiction]. intros _. exists d, d. simpl. repeat split; auto. lia.
  - split; [|contradiction]. intros _. simpl.
    destruct (best_total_distance s0) as [|recorded]; [discriminate|].
    exists d, recorded. simpl in Hlt. apply Z.ltb_ge in Hlt. repeat split; auto.
Qed.


Lemma exact_fit_run : find_best_routes exact_fit = Ok (Some exact_fit_routes, exact_fit_final).
Proof. vm_compute. reflexivity. Qed.


(** The reference run returns routes within the ceiling as well, on the
    rationals and on binary64. *)
Example reference_routes_within_ceiling :
  Forall (within_ceiling reference) reference_routes /\
  Forall (fun route =>
            exists t, calculate_route_time_f64 reference route = Ok t /\
                      PrimFloat.leb t (float_of_int (MAX_TIME_PER_DAY reference)) = true)
         reference_routes.
Proof.
  split; repeat constructor; eexists; (split; [vm_compute; reflexivity|]);
    vm_compute; first [reflexivity | discriminate].
Qed.

(** The recorded best changes only for a combination whose total is
    strictly less than the recorded one, or when nothing is recorded yet. *)
Lemma replaced_only_when_strictly_less (cfg : Config) (a h n : Z)
    (c : list Z * list Z) (s0 s1 : state) :
  combination cfg a h n (fst c) (snd c) s0 = Next s1 ->
  (best_routes_combination s1 = best_routes_combination s0 /\
   best_total_distance s1 = best_total_distance s0) \/
  (exists d,
     total_distance cfg (day_assignment a h n c) = Ok d /\
     match best_total_distance s0 with
     | Finite recorded => d < recorded
     | Infinity => True
     end /\
     best_routes_combination s1 = Some (day_assignment a h n c) /\
     best_total_distance s1 = Finite d).
Proof.
  intros Hstep. apply combination_next in Hstep.
  destruct Hstep as [[_ ->] | (d & _ & Hd & [[Hlt ->] | [_ ->]])].
  - now left.
  - right. exists d. split; [exact Hd|]. split; [|now split].
    destruct (best_total_distance s0); [exact I|]. now apply Z.ltb_lt.
  - now left.
Qed.



(** On [exact_fit] the two DayAssignments of the enumeration are feasible
    and 360 km long; the first one is returned. *)
Example tie_goes_to_the_first :
  candidates exact_fit = [exact_fit_routes; [[0; 2; 4]; [4; 3; 4]; [4; 1; 0]]] /\
  map (total_distance exact_fit) (candidates exact_fit) = [Ok 360; Ok 360] /\
  Forall (feasible exact_fit) (candidates exact_fit) /\
  find_best_routes exact_fit = Ok (Some exact_fit_routes, exact_fit_final).
Proof.
  split; [reflexivity|]. split; [reflexivity|]. split; [|vm_compute; reflexivity].
  repeat constructor; eexists; (split; [reflexivity|]); vm_compute; discriminate.
Qed.

(** C3. In every DayAssignment a run of the search has built, and in the one
    it returns, the intermediate stops of Day 1 and of Day 3 put together are
    exactly the free locations (the locations other than Airport, Hotel and
    NASA), each of them once. *)
Theorem open_days_share_out_free_locations (cfg : Config)
    (v : option (list (list Z))) (s : state) :
  find_best_routes cfg = Ok (v, s) ->
  exists a h n,
    anchors cfg = Ok (a, h, n) /\
    (forall i, In i (free_locations cfg) <->
               location cfg i /\ i <> a /\ i <> h /\ i <> n) /\
    (forall c, In c (examined s) ->
               shares_out_free_locations cfg (day_assignment a h n c)) /\
    (forall routes, v = Some routes -> shares_out_free_locations cfg routes).
Proof.
  intros Hrun.
  destruct (find_best_routes_inv cfg v s Hrun) as (a & h & n & Hanchors & _).
  exists a, h, n. split; [exact Hanchors|]. split; [|split].
  - intros i. unfold free_locations. rewrite Hanchors. apply places_to_visit_In.
  - intros c Hc. apply (enumeration_shares_out cfg a h n c Hanchors).
    exact (examined_enumerated cfg v s c Hrun Hc).
  - intros routes ->.
    destruct (returned_enumerated cfg routes s Hrun) as (a' & h' & n' & c & Ha' & Hc & ->).
    apply (enumeration_shares_out cfg a' h' n' c Ha' Hc).
Qed.

Lemma open_days_share_out_free_locations_witness :
  exists a h n,
    anchors reference = Ok (a, h, n) /\
    (forall i, In i (free_locations reference) <->
               location reference i /\ i <> a /\ i <> h /\ i <> n) /\
    (forall c, In c (examined reference_final) ->
               shares_out_free_locations reference (day_assignment a h n c)) /\
    (forall routes, Some reference_routes = Some routes ->
                    shares_out_free_locations reference routes).
Proof.
  apply (open_days_share_out_free_locations reference (Some reference_routes) reference_final).
  exact reference_run.
Defined.

(** C6. Every combination a run of the search has entered gives Day 1
    between 1 and |free| - 1 of the free locations and Day 3 the others, at
    least one; so do the routes it returns. *)
Theorem split_sizes_leave_a_stop_on_each_day (cfg : Config)
    (v : option (list (list Z))) (s : state) :
  find_best_routes cfg = Ok (v, s) ->
  (forall day1_places day3_places,
     In (day1_places, day3_places) (examined s) ->
     (1 <= List.length day1_places <= List.length (free_locations cfg) - 1)%nat /\
     (1 <= List.length day3_places <= List.length (free_locations cfg) - 1)%nat /\
     (List.length day1_places + List.length day3_places
      = List.length (free_locations cfg))%nat) /\
  (forall routes, v = Some routes -> both_days_have_a_stop cfg routes).
Proof.
  intros Hrun.
  destruct (find_best_routes_inv cfg v s Hrun) as (a & h & n & Hanchors & _).
  split.
  - intros d1 d3 Hc. apply (examined_enumerated cfg v s _ Hrun) in Hc.
    unfold enumeration in Hc.
    assert (NoDup (free_locations cfg)) as Hnd.
    { unfold free_locations. rewrite Hanchors. apply places_to_visit_NoDup. }
    destruct (combinations_partition _ d1 d3 Hnd Hc) as (_ & _ & Hl1 & Hl3 & Hsum).
    auto.
  - intros routes ->.
    destruct (returned_enumerated cfg routes s Hrun) as (a' & h' & n' & c & Ha' & Hc & ->).
    apply (enumeration_shares_out cfg a' h' n' c Ha' Hc).
Qed.

Lemma split_sizes_leave_a_stop_on_each_day_witness :
  (forall day1_places day3_places,
     In (day1_places, day3_places) (examined reference_final) ->
     (1 <= List.length day1_places <= List.length (free_locations reference) - 1)%nat /\
     (1 <= List.length day3_places <= List.length (free_locations reference) - 1)%nat /\
     (List.length day1_places + List.length day3_places
      = List.length (free_locations reference))%nat) /\
  (forall routes, Some reference_routes = Some routes ->
                  both_days_have_a_stop reference routes).
Proof.
  apply (split_sizes_leave_a_stop_on_each_day reference (Some reference_routes) reference_final).
  exact reference_run.
Defined.

(** ** A well-formed instance raises nothing *)

Lemma index_from_bounds (xs : list string) (x : string) (i k : Z) :
  index_from xs x i = Ok k -> i <= k < i + Z.of_nat (List.length xs).
Proof.
  revert i. induction xs as [|y ys IH]; intros i Hk; simpl in Hk; [discriminate|].
  simpl List.length. destruct (String.eqb y x).
  - injection Hk as <-. lia.
  - apply IH in Hk. lia.
Qed.

Lemma index_from_In (xs : list string) (x : string) (i : Z) :
  In x xs -> exists k, index_from xs x i = Ok k.
Proof.
  revert i. induction xs as [|y ys IH]; intros i Hin; [contradiction|].
  simpl. destruct (String.eqb_spec y x) as [_|Hne].
  - now exists i.
  - destruct Hin as [Heq|Hin]; [contradiction|]. now apply IH.
Qed.

Lemma get_location_index_ok (cfg : Config) (name : string) :
  In name (LOCATIONS cfg) ->
  exists k, get_location_index cfg name = Ok k /\ location cfg k.
Proof.
  intros Hin. destruct (index_from_In _ _ 0 Hin) as [k Hk].
  exists k. split; [exact Hk|]. apply index_from_bounds in Hk.
  unfold location. lia.
Qed.

Lemma anchors_ok (cfg : Config) :
  well_formed cfg ->
  exists a h n, anchors cfg = Ok (a, h, n) /\
                location cfg a /\ location cfg h /\ location cfg n.
Proof.
  intros (_ & Ha & Hh & Hn). unfold anchors.
  destruct (get_location_index_ok cfg _ Ha) as (a & -> & Hla).
  destruct (get_location_index_ok cfg _ Hh) as (h & -> & Hlh).
  destruct (get_location_index_ok cfg _ Hn) as (n & -> & Hln).
  now exists a, h, n.
Qed.

Lemma enumeration_locations (cfg : Config) (c : list Z * list Z) :
  In c (enumeration cfg) ->
  Forall (location cfg) (fst c) /\ Forall (location cfg) (snd c).
Proof.
  intros Hc. destruct c as [d1 d3]. unfold enumeration in Hc.
  assert (NoDup (free_locations cfg)) as Hnd.
  { unfold free_locations. destruct (anchors cfg) as [[[a h] n]|];
      [apply places_to_visit_NoDup|constructor]. }
  destruct (combinations_partition _ d1 d3 Hnd Hc) as (Hperm & _).
  assert (forall i, In i (d1 ++ d3) -> location cfg i) as Hloc.
  { intros i Hi. apply (Permutation_in _ Hperm) in Hi.
    unfold free_locations in Hi. destruct (anchors cfg) as [[[a h] n]|]; [|contradiction].
    now apply places_to_visit_In in Hi. }
  simpl. split; apply Forall_forall; intros i Hi; apply Hloc, in_app_iff; auto.
Qed.

Lemma upto_first_none {A : Type} (p : A -> bool) (xs : list A) :
  existsb p xs = false -> upto_first p xs = xs.
Proof.
  induction xs as [|x xs IH]; simpl; [reflexivity|].
  destruct (p x); simpl; [discriminate|]. intros H. now rewrite IH.
Qed.

Lemma find_best_routes_anchors (cfg : Config) (a h n : Z) :
  anchors cfg = Ok (a, h, n) ->
  find_best_routes cfg =
  match search cfg a h n initial with
  | Next s => Ok (best_routes_combination s, s)
  | Return v s => Ok (v, s)
  | Throw e => Raise e
  end.
Proof.
  unfold anchors, find_best_routes, bind.
  destruct (get_location_index cfg "Aeropuerto"); [|discriminate].
  destruct (get_location_index cfg "Hotel"); [|discriminate].
  destruct (get_location_index cfg "NASA"); [|discriminate].
  now intros [= -> -> ->].
Qed.

Lemma for_each_no_throw {A : Type} (body : A -> state -> flow) (xs : list A) :
  (forall x, In x xs -> forall s e, body x s <> Throw e) ->
  forall s e, for_each xs body s <> Throw e.
Proof.
  induction xs as [|x xs IH]; intros Hbody s e; simpl; [discriminate|].
  destruct (body x s) as [s1|v s1|e1] eqn:Hx.
  - apply IH. intros y Hy. apply Hbody. now right.
  - discriminate.
  - exfalso. exact (Hbody x (or_introl eq_refl) s e1 Hx).
Qed.

Lemma combination_no_throw (cfg : Config) (a h n : Z) (c : list Z * list Z) (s : state) :
  tables_cover cfg ->
  location cfg a -> location cfg h -> location cfg n ->
  Forall (location cfg) (fst c) -> Forall (location cfg) (snd c) ->
  forall e, combination cfg a h n (fst c) (snd c) s <> Throw e.
Proof.
  intros Hcover Ha Hh Hn Hd1 Hd3 e.
  assert (Forall (location cfg) ([a] ++ fst c ++ [h])) as H1.
  { apply Forall_app. split; [now constructor|].
    apply Forall_app. split; [exact Hd1|now constructor]. }
  assert (Forall (location cfg) [h; n; h]) as H2
    by (repeat (apply Forall_cons; [assumption|]); apply Forall_nil).
  assert (Forall (location cfg) ([h] ++ snd c ++ [a])) as H3.
  { apply Forall_app. split; [now constructor|].
    apply Forall_app. split; [exact Hd3|now constructor]. }
  unfold combination, try.
  destruct (calculate_route_time_ok cfg Hcover _ H1) as [t1 ->].
  destruct (exceeds cfg t1); [discriminate|].
  destruct (calculate_route_time_ok cfg Hcover _ H2) as [t2 ->].
  destruct (exceeds cfg t2); [discriminate|].
  destruct (calculate_route_time_ok cfg Hcover _ H3) as [t3 ->].
  destruct (exceeds cfg t3); [discriminate|].
  destruct (calculate_route_distance_ok cfg Hcover _ H1) as [d1 ->].
  destruct (calculate_route_distance_ok cfg Hcover _ H2) as [d2 ->].
  destruct (calculate_route_distance_ok cfg Hcover _ H3) as [d3 ->].
  destruct (lt_bound _ _); discriminate.
Qed.

(** On a well-formed instance [find_best_routes] returns: no lookup
    raises. *)
Theorem find_best_routes_returns (cfg : Config) :
  well_formed cfg -> exists v s, find_best_routes cfg = Ok (v, s).
Proof.
  intros Hwf.
  destruct (anchors_ok cfg Hwf) as (a & h & n & Hanchors & Ha & Hh & Hn).
  rewrite (find_best_routes_anchors cfg a h n Hanchors).
  destruct (search cfg a h n initial) as [s|v s|e] eqn:Hrun.
  - now exists (best_routes_combination s), s.
  - now exists v, s.
  - exfalso. rewrite search_combinations in Hrun. revert Hrun.
    apply for_each_no_throw. intros c Hc s e'.
    assert (In c (enumeration cfg)) as Hc'.
    { unfold enumeration, free_locations. now rewrite Hanchors. }
    destruct (enumeration_locations cfg c Hc') as [Hd1 Hd3].
    now apply combination_no_throw; [apply Hwf| | | | |].
Qed.

(** ** The fixed day over the ceiling *)

Lemma examined_enter_all (cs : list (list Z * list Z)) (s : state) :
  examined (enter_all cs s) = examined s ++ cs /\
  stdout (enter_all cs s) = stdout s /\
  best_routes_combination (enter_all cs s) = best_routes_combination s.
Proof.
  revert s. induction cs as [|c cs IH]; intros s; simpl.
  - now rewrite app_nil_r.
  - destruct (IH (enter c s)) as (-> & -> & ->). simpl.
    now rewrite <- app_assoc.
Qed.

(** With the fixed day over the ceiling, the loops run until the first
    combination whose Day-1 route is within the ceiling and return there. *)
Lemma for_each_fixed_day_over (cfg : Config) (a h n : Z) (t2 : Q)
    (xs : list (list Z * list Z)) :
  anchors cfg = Ok (a, h, n) ->
  calculate_route_time cfg [h; n; h] = Ok t2 ->
  exceeds cfg t2 = true ->
  (forall c, In c xs -> exists t1, calculate_route_time cfg ([a] ++ fst c ++ [h]) = Ok t1) ->
  forall s,
    for_each xs (fun c => combination cfg a h n (fst c) (snd c)) s =
    if existsb (day1_passes cfg) xs
    then Return None (print error_day2 (enter_all (upto_first (day1_passes cfg) xs) s))
    else Next (enter_all xs s).
Proof.
  intros Hanchors Ht2 He2. induction xs as [|x xs IH]; intros Hday1 s; [reflexivity|].
  destruct (Hday1 x (or_introl eq_refl)) as [t1 Ht1].
  assert (day1_passes cfg x = negb (exceeds cfg t1)) as Hp.
  { unfold day1_passes. now rewrite Hanchors, Ht1. }
  simpl. rewrite Hp.
  unfold combination at 1, try. rewrite Ht1.
  destruct (exceeds cfg t1); simpl.
  - destruct x as [d1 d3]. apply IH. intros c Hc. apply Hday1. now right.
  - rewrite Ht2. simpl. rewrite He2. now destruct x.
Qed.




(** With a ceiling of 1 hour no Day-1 route passes: the run goes through
    the 480 combinations, never reaches the test of the fixed day, and prints
    nothing. *)
Example ceiling_1_examines_everything :
  exists s, find_best_routes ceiling_1 = Ok (None, s) /\
            List.length (examined s) = 480%nat /\ stdout s = [].
Proof. eexists. split; [vm_compute; reflexivity|]. split; reflexivity. Qed.

Example ceiling_10_run :
  exists s, find_best_routes ceiling_10 = Ok (None, s) /\
            examined s = [([1], [2; 3; 5; 6])] /\ stdout s = [error_day2].
Proof. eexists. split; [vm_compute; reflexivity|]. split; reflexivity. Qed.

(** A time equal to the ceiling passes the test: on [exact_fit] each of
    the three returned routes takes exactly the four hours allowed. *)
Example ceiling_is_inclusive :
  exists s t1 t2 t3,
    find_best_routes exact_fit = Ok (Some [[0; 1; 4]; [4; 3; 4]; [4; 2; 0]], s) /\
    calculate_route_time exact_fit [0; 1; 4] = Ok t1 /\
    calculate_route_time exact_fit [4; 3; 4] = Ok t2 /\
    calculate_route_time exact_fit [4; 2; 0] = Ok t3 /\
    (t1 == inject_Z (MAX_TIME_PER_DAY exact_fit))%Q /\
    (t2 == inject_Z (MAX_TIME_PER_DAY exact_fit))%Q /\
    (t3 == inject_Z (MAX_TIME_PER_DAY exact_fit))%Q.
Proof.
  do 4 eexists. split; [vm_compute; reflexivity|].
  repeat (split; [reflexivity|]). reflexivity.
Qed.

(** The enumeration of the reference instance: five free locations,
    (5 - 1) * 5! combinations. *)
Example reference_enumeration :
  free_locations reference = [1; 2; 3; 5; 6] /\
  List.length (enumeration reference) = 480%nat /\
  examined reference_final = enumeration reference.
Proof.
  split; [reflexivity|]. split; vm_compute; reflexivity.
Qed.

(** No sum of the reference instance leaves the [int64] range. *)
Lemma wrap64_small (z : Z) : - 2 ^ 63 <= z < 2 ^ 63 -> wrap64 z = z.
Proof.
  intros Hz. unfold wrap64. rewrite Z.mod_small; lia.
Qed.

(** ** Binary64 *)

(** On the reference instance, and with the ceilings of 10 hours and of 1
    hour, every ceiling test the search can make has the same outcome on the
    script's binary64 numbers as on the exact rationals. *)
Lemma binary64_same_tests :
  same_tests reference = true /\ same_tests ceiling_10 = true /\
  same_tests ceiling_1 = true /\ same_tests exact_fit = true.
Proof.
  split; [vm_compute; reflexivity|].
  split; [vm_compute; reflexivity|].
  split; vm_compute; reflexivity.
Qed.

(** The two readings of the loop read the same entries of the tables:
    they return together, or raise the same exception. *)
Lemma route_time_loops_alike (cfg : Config) (route : list Z) :
  forall q f,
    match route_time_loop cfg route q, route_time_loop_f64 cfg route f with
    | Ok _, Ok _ => True
    | Raise e, Raise e' => e = e'
    | _, _ => False
    end.
Proof.
  induction route as [|a rest IH]; intros q f; [exact I|].
  destruct rest as [|b rest']; [exact I|].
  change (route_time_loop cfg (a :: b :: rest') q)
    with (bind (getitem2 (DISTANCES_KM cfg) a b) (fun d =>
          bind (getitem (TIMES_AT_LOCATION cfg) b) (fun w =>
          route_time_loop cfg (b :: rest')
            (q + inject_Z d / inject_Z (Zpos (VELOCIDAD_PROMEDIO_KMH cfg))
             + inject_Z w)%Q))).
  change (route_time_loop_f64 cfg (a :: b :: rest') f)
    with (bind (getitem2 (DISTANCES_KM cfg) a b) (fun d =>
          bind (getitem (TIMES_AT_LOCATION cfg) b) (fun w =>
          route_time_loop_f64 cfg (b :: rest')
            (PrimFloat.add
               (PrimFloat.add f
                  (PrimFloat.div (float_of_int d)
                     (float_of_int (Zpos (VELOCIDAD_PROMEDIO_KMH cfg)))))
               (float_of_int w))))).
  destruct (getitem2 (DISTANCES_KM cfg) a b) as [d|e]; [|reflexivity].
  unfold bind at 1 3.
  destruct (getitem (TIMES_AT_LOCATION cfg) b) as [w|e]; [|reflexivity].
  unfold bind. apply IH.
Qed.

Lemma same_test_cases (cfg : Config) (route : list Z) :
  same_test cfg route = true ->
  (exists q f, calculate_route_time cfg route = Ok q /\
               calculate_route_time_f64 cfg route = Ok f /\
               exceeds_f64 cfg f = exceeds cfg q) \/
  (exists e, calculate_route_time cfg route = Raise e /\
             calculate_route_time_f64 cfg route = Raise e).
Proof.
  unfold same_test, calculate_route_time, calculate_route_time_f64.
  pose proof (route_time_loops_alike cfg route 0%Q (float_of_int 0)) as Halike.
  destruct (route_time_loop cfg route 0%Q) as [q|e];
    destruct (route_time_loop_f64 cfg route (float_of_int 0)) as [f|e'];
    try contradiction.
  - intros Hsame. left. exists q, f. repeat split.
    symmetry. now apply Bool.eqb_prop.
  - intros _. right. exists e. now subst.
Qed.

Lemma combination_f64_same (cfg : Config) (a h n : Z) (c : list Z * list Z) (s : state) :
  forallb (same_test cfg) (day_assignment a h n c) = true ->
  combination_f64 cfg a h n (fst c) (snd c) s = combination cfg a h n (fst c) (snd c) s.
Proof.
  unfold day_assignment. cbn [forallb]. rewrite !andb_true_iff.
  intros (H1 & H2 & H3 & _).
  unfold combination_f64, combination, try.
  destruct (same_test_cases cfg _ H1) as [(q1 & f1 & -> & -> & ->) | (e & -> & ->)];
    [|reflexivity].
  destruct (exceeds cfg q1); [reflexivity|].
  destruct (same_test_cases cfg _ H2) as [(q2 & f2 & -> & -> & ->) | (e & -> & ->)];
    [|reflexivity].
  destruct (exceeds cfg q2); [reflexivity|].
  destruct (same_test_cases cfg _ H3) as [(q3 & f3 & -> & -> & ->) | (e & -> & ->)];
    [|reflexivity].
  reflexivity.
Qed.

Lemma for_each_ext_in {A : Type} (xs : list A) (body body' : A -> state -> flow) :
  (forall x, In x xs -> forall s, body x s = body' x s) ->
  forall s, for_each xs body s = for_each xs body' s.
Proof.
  induction xs as [|x xs IH]; intros Hext s; simpl; [reflexivity|].
  rewrite (Hext x (or_introl eq_refl)).
  destruct (body' x s); auto. apply IH. intros y Hy. apply Hext. now right.
Qed.

Lemma search_f64_combinations (cfg : Config) (a h n : Z) (s : state) :
  search_f64 cfg a h n s =
  for_each (combinations (places_to_visit cfg a h n))
           (fun c => combination_f64 cfg a h n (fst c) (snd c)) s.
Proof.
  unfold search_f64, combinations.
  rewrite for_each_flat_map. apply for_each_ext. intros day1_size s1.
  rewrite for_each_flat_map. apply for_each_ext. intros day1_places s2.
  rewrite for_each_map. reflexivity.
Qed.

(** The search looks at the times only through its ceiling tests: on an
    instance where every test has the same outcome in both readings, the
    search on binary64 is the search on the rationals, in what it returns and
    in the state it ends in. *)
Theorem same_tests_same_run (cfg : Config) :
  same_tests cfg = true -> find_best_routes_f64 cfg = find_best_routes cfg.
Proof.
  intros Hsame. unfold find_best_routes_f64, find_best_routes, bind.
  destruct (get_location_index cfg "Aeropuerto") as [a|] eqn:Ha; [|reflexivity].
  destruct (get_location_index cfg "Hotel") as [h|] eqn:Hh; [|reflexivity].
  destruct (get_location_index cfg "NASA") as [n|] eqn:Hn; [|reflexivity].
  rewrite search_combinations, search_f64_combinations.
  rewrite (for_each_ext_in _
             (fun c => combination_f64 cfg a h n (fst c) (snd c))
             (fun c => combination cfg a h n (fst c) (snd c))); [reflexivity|].
  intros c Hc s. apply combination_f64_same.
  unfold same_tests in Hsame. rewrite forallb_forall in Hsame. apply Hsame.
  unfold candidates, enumeration, free_locations, anchors, bind.
  rewrite Ha, Hh, Hn. now apply in_map.
Qed.

(** So the runs are the same: what is returned, and the state at the end. *)
Lemma binary64_same_run :
  find_best_routes_f64 reference = find_best_routes reference /\
  find_best_routes_f64 ceiling_10 = find_best_routes ceiling_10 /\
  find_best_routes_f64 ceiling_1 = find_best_routes ceiling_1 /\
  find_best_routes_f64 exact_fit = find_best_routes exact_fit.
Proof.
  split; [vm_compute; reflexivity|].
  split; [vm_compute; reflexivity|].
  split; vm_compute; reflexivity.
Qed.

(** The fixed day of the reference instance on binary64:
    10.166666666666668 hours. *)
Example binary64_fixed_day :
  calculate_route_time_f64 reference [7; 4; 7] = Ok 0x1.4555555555556p+3%float.
Proof. vm_compute. reflexivity. Qed.

(** * Further properties *)

(** ** Looking a name up *)

Lemma getitem_nth {A : Type} (xs : list A) (i : Z) (x : A) :
  0 <= i < Z.of_nat (List.length xs) ->
  getitem xs i = Ok x <-> nth_error xs (Z.to_nat i) = Some x.
Proof.
  intros Hi. unfold getitem. rewrite (axis_index_ok _ _ Hi). simpl.
  destruct (nth_error xs (Z.to_nat i)) as [y|]; split; congruence.
Qed.

Lemma index_from_first (xs : list string) (x : string) (k i : Z) :
  index_from xs x k = Ok i ->
  k <= i < k + Z.of_nat (List.length xs) /\
  nth_error xs (Z.to_nat (i - k)) = Some x /\
  forall j, k <= j < i -> nth_error xs (Z.to_nat (j - k)) <> Some x.
Proof.
  revert k. induction xs as [|y ys IH]; intros k Hi; simpl in Hi; [discriminate|].
  simpl List.length. destruct (String.eqb_spec y x) as [->|Hne].
  - injection Hi as <-. rewrite Z.sub_diag. simpl.
    split; [lia|]. split; [reflexivity|]. intros j Hj. lia.
  - destruct (IH _ Hi) as (Hrange & Hnth & Hfirst).
    split; [lia|]. split.
    + replace (Z.to_nat (i - k)) with (S (Z.to_nat (i - (k + 1)))) by lia. exact Hnth.
    + intros j Hj. destruct (Z.eq_dec j k) as [->|Hjk].
      * rewrite Z.sub_diag. simpl. congruence.
      * replace (Z.to_nat (j - k)) with (S (Z.to_nat (j - (k + 1)))) by lia.
        apply Hfirst. lia.
Qed.

Lemma index_from_raise (xs : list string) (x : string) (k : Z) (e : exn) :
  index_from xs x k = Raise e <-> e = ValueError /\ ~ In x xs.
Proof.
  revert k. induction xs as [|y ys IH]; intros k; simpl.
  - split; [intros [= <-]; auto|]. now intros [-> _].
  - destruct (String.eqb_spec y x) as [->|Hne].
    + split; [discriminate|]. intros [_ Hnot]. exfalso. apply Hnot. now left.
    + rewrite IH. intuition.
Qed.

(** X1. When [get_location_index] returns, it returns the first position
    of the name in [LOCATIONS]: an index of the list, where the name is, and
    before which the name is not. *)
Theorem get_location_index_is_first_position (cfg : Config) (name : string) (i : Z) :
  get_location_index cfg name = Ok i ->
  location cfg i /\
  getitem (LOCATIONS cfg) i = Ok name /\
  forall j, 0 <= j < i -> getitem (LOCATIONS cfg) j <> Ok name.
Proof.
  intros Hi. apply index_from_first in Hi. destruct Hi as (Hrange & Hnth & Hfirst).
  rewrite Z.sub_0_r in Hnth. unfold location.
  split; [lia|]. split.
  - apply getitem_nth; [lia|exact Hnth].
  - intros j Hj Hget. apply getitem_nth in Hget; [|lia].
    apply (Hfirst j); [lia|]. now rewrite Z.sub_0_r.
Qed.

Lemma get_location_index_is_first_position_witness :
  location reference 7 /\
  getitem (LOCATIONS reference) 7 = Ok "Hotel"%string /\
  forall j, 0 <= j < 7 -> getitem (LOCATIONS reference) j <> Ok "Hotel"%string.
Proof.
  apply (get_location_index_is_first_position reference "Hotel" 7). reflexivity.
Defined.

(** X2. [get_location_index] raises exactly when the name is not in
    [LOCATIONS], and what it raises is [ValueError]. *)
Theorem get_location_index_raises_on_absent_name (cfg : Config) (name : string) (e : exn) :
  get_location_index cfg name = Raise e <-> e = ValueError /\ ~ In name (LOCATIONS cfg).
Proof. apply index_from_raise. Qed.

(** X3. Round trip: when no name is listed twice, looking up the name
    found at an index gives the index back. *)
Theorem get_location_index_of_name_at (cfg : Config) (i : Z) (name : string) :
  NoDup (LOCATIONS cfg) ->
  location cfg i ->
  getitem (LOCATIONS cfg) i = Ok name ->
  get_location_index cfg name = Ok i.
Proof.
  intros Hnd Hi Hget. unfold location in Hi.
  apply getitem_nth in Hget; [|exact Hi].
  destruct (index_from_In (LOCATIONS cfg) name 0 (nth_error_In _ _ Hget)) as [k Hk].
  unfold get_location_index. rewrite Hk. f_equal.
  apply index_from_first in Hk. destruct Hk as (Hrange & Hnth & _).
  rewrite Z.sub_0_r in Hnth.
  assert (Z.to_nat k = Z.to_nat i) as Heq.
  { apply (proj1 (NoDup_nth_error (LOCATIONS cfg)) Hnd); [lia|congruence]. }
  lia.
Qed.

Lemma get_location_index_of_name_at_witness :
  get_location_index reference "NASA" = Ok 4.
Proof.
  apply (get_location_index_of_name_at reference 4 "NASA").
  - simpl. repeat (constructor; [simpl; intuition discriminate|]). constructor.
  - unfold location; simpl; lia.
  - reflexivity.
Defined.

(** ** Route metrics, further *)

Lemma wrap64_range (z : Z) : - 2 ^ 63 <= wrap64 z < 2 ^ 63.
Proof.
  unfold wrap64. pose proof (Z.mod_pos_bound (z + 2 ^ 63) (2 ^ 64)). lia.
Qed.

Lemma wrap64_add_l (a b : Z) : wrap64 (wrap64 a + b) = wrap64 (a + b).
Proof.
  unfold wrap64. f_equal.
  replace ((a + 2 ^ 63) mod 2 ^ 64 - 2 ^ 63 + b + 2 ^ 63)
    with ((a + 2 ^ 63) mod 2 ^ 64 + b) by lia.
  rewrite Zplus_mod_idemp_l. f_equal. lia.
Qed.

Lemma wrap64_add_r (a b : Z) : wrap64 (a + wrap64 b) = wrap64 (a + b).
Proof. rewrite Z.add_comm, wrap64_add_l. f_equal. lia. Qed.

Lemma route_distance_loop_sum (cfg : Config) (route : list Z) :
  tables_cover cfg ->
  Forall (location cfg) route ->
  forall total_distance,
    - 2 ^ 63 <= total_distance < 2 ^ 63 ->
    route_distance_loop cfg route total_distance =
    Ok (wrap64 (total_distance + legs_distance cfg route)).
Proof.
  intros Hcover. unfold legs_distance.
  induction route as [|a rest IH]; intros Hloc acc Hacc.
  - simpl. now rewrite Z.add_0_r, wrap64_small.
  - destruct rest as [|b rest'].
    + simpl. now rewrite Z.add_0_r, wrap64_small.
    + inversion Hloc as [|? ? Ha Hrest]; subst.
      inversion Hrest as [|? ? Hb _]; subst.
      destruct (getitem2_ok cfg Hcover a b Ha Hb) as [d Hd].
      change (route_distance_loop cfg (a :: b :: rest') acc)
        with (bind (getitem2 (DISTANCES_KM cfg) a b) (fun d =>
              route_distance_loop cfg (b :: rest') (wrap64 (acc + d)))).
      rewrite Hd. unfold bind.
      rewrite (IH Hrest _ (wrap64_range _)), wrap64_add_l.
      simpl legs. simpl map. simpl Zsum. unfold distance at 2. rewrite Hd.
      f_equal. f_equal. lia.
Qed.

(** X4. On a route of locations [calculate_route_distance] returns the sum
    of the distances of its consecutive pairs, brought into [int64]; it is
    that sum itself when the sum is an [int64]. *)
Theorem calculate_route_distance_sums_legs (cfg : Config) (route : list Z) :
  tables_cover cfg ->
  Forall (location cfg) route ->
  calculate_route_distance cfg route = Ok (wrap64 (legs_distance cfg route)) /\
  (- 2 ^ 63 <= legs_distance cfg route < 2 ^ 63 ->
   calculate_route_distance cfg route = Ok (legs_distance cfg route)).
Proof.
  intros Hcover Hloc.
  assert (calculate_route_distance cfg route = Ok (wrap64 (legs_distance cfg route))) as H.
  { unfold calculate_route_distance.
    rewrite (route_distance_loop_sum cfg route Hcover Hloc 0) by lia.
    reflexivity. }
  split; [exact H|]. intros Hsmall. now rewrite H, wrap64_small.
Qed.

Lemma calculate_route_distance_sums_legs_witness :
  calculate_route_distance reference [0; 2; 3; 5; 7]
    = Ok (wrap64 (legs_distance reference [0; 2; 3; 5; 7])) /\
  (- 2 ^ 63 <= legs_distance reference [0; 2; 3; 5; 7] < 2 ^ 63 ->
   calculate_route_distance reference [0; 2; 3; 5; 7]
     = Ok (legs_distance reference [0; 2; 3; 5; 7])).
Proof.
  apply (calculate_route_distance_sums_legs reference [0; 2; 3; 5; 7]).
  - exact reference_tables_cover.
  - repeat constructor; simpl; lia.
Defined.

Lemma legs_app (r1 r2 : list Z) (x : Z) :
  legs (r1 ++ x :: r2) = legs (r1 ++ [x]) ++ legs (x :: r2).
Proof.
  induction r1 as [|a r1 IH]; [reflexivity|].
  destruct r1 as [|b r1'].
  - simpl. destruct r2; reflexivity.
  - change (legs ((a :: b :: r1') ++ x :: r2)) with ((a, b) :: legs ((b :: r1') ++ x :: r2)).
    change (legs ((a :: b :: r1') ++ [x])) with ((a, b) :: legs ((b :: r1') ++ [x])).
    rewrite IH. reflexivity.
Qed.

Lemma Zsum_app (xs ys : list Z) : Zsum (xs ++ ys) = Zsum xs + Zsum ys.
Proof. induction xs as [|x xs IH]; simpl; lia. Qed.

Lemma legs_distance_app (cfg : Config) (r1 r2 : list Z) (x : Z) :
  legs_distance cfg (r1 ++ x :: r2)
  = legs_distance cfg (r1 ++ [x]) + legs_distance cfg (x :: r2).
Proof. unfold legs_distance. now rewrite legs_app, map_app, Zsum_app. Qed.

(** X5. A route cut at one of its stops: the distance of the whole is the
    distance up to the stop plus the distance from it (in [int64]). *)
Theorem route_distance_split_at_a_stop (cfg : Config) (r1 r2 : list Z) (x : Z) :
  tables_cover cfg ->
  Forall (location cfg) (r1 ++ x :: r2) ->
  exists d d1 d2,
    calculate_route_distance cfg (r1 ++ x :: r2) = Ok d /\
    calculate_route_distance cfg (r1 ++ [x]) = Ok d1 /\
    calculate_route_distance cfg (x :: r2) = Ok d2 /\
    d = wrap64 (d1 + d2).
Proof.
  intros Hcover Hloc.
  apply Forall_app in Hloc as Hparts. destruct Hparts as [Hr1 Hxr2].
  assert (Forall (location cfg) (r1 ++ [x])) as Hr1x.
  { apply Forall_app. split; [exact Hr1|]. inversion Hxr2; subst.
    apply Forall_cons; [assumption|apply Forall_nil]. }
  destruct (calculate_route_distance_sums_legs cfg _ Hcover Hloc) as [Hd _].
  destruct (calculate_route_distance_sums_legs cfg _ Hcover Hr1x) as [Hd1 _].
  destruct (calculate_route_distance_sums_legs cfg _ Hcover Hxr2) as [Hd2 _].
  do 3 eexists.
  split; [exact Hd|]. split; [exact Hd1|]. split; [exact Hd2|].
  now rewrite wrap64_add_l, wrap64_add_r, legs_distance_app.
Qed.

Lemma route_distance_split_at_a_stop_witness :
  exists d d1 d2,
    calculate_route_distance reference ([0; 2] ++ 3 :: [5; 7]) = Ok d /\
    calculate_route_distance reference ([0; 2] ++ [3]) = Ok d1 /\
    calculate_route_distance reference (3 :: [5; 7]) = Ok d2 /\
    d = wrap64 (d1 + d2).
Proof.
  apply (route_distance_split_at_a_stop reference [0; 2] [5; 7] 3).
  - exact reference_tables_cover.
  - repeat constructor; simpl; lia.
Defined.

Lemma legs_rev (route : list Z) :
  legs (rev route) = map (fun leg => (snd leg, fst leg)) (rev (legs route)).
Proof.
  induction route as [|a rest IH]; [reflexivity|].
  destruct rest as [|b rest']; [reflexivity|].
  change (rev (a :: b :: rest')) with (rev (b :: rest') ++ [a]).
  rewrite legs_snoc.
  - rewrite IH.
    change (legs (a :: b :: rest')) with ((a, b) :: legs (b :: rest')).
    simpl rev at 3. rewrite map_app. simpl map. f_equal. f_equal. f_equal.
    simpl rev. apply last_last.
  - simpl. destruct (rev rest'); discriminate.
Qed.

Lemma legs_In (route : list Z) (a b : Z) :
  In (a, b) (legs route) -> In a route /\ In b route.
Proof.
  induction route as [|x rest IH]; [contradiction|].
  destruct rest as [|y rest']; [contradiction|].
  change (legs (x :: y :: rest')) with ((x, y) :: legs (y :: rest')).
  intros [[= <- <-] | Hin].
  - split; [now left|right; now left].
  - destruct (IH Hin). split; now right.
Qed.

Lemma Zsum_rev (zs : list Z) : Zsum (rev zs) = Zsum zs.
Proof.
  induction zs as [|z zs IH]; [reflexivity|].
  simpl. rewrite Zsum_app, IH. simpl. lia.
Qed.

Lemma legs_distance_rev (cfg : Config) (route : list Z) :
  symmetric_table cfg ->
  Forall (location cfg) route ->
  legs_distance cfg (rev route) = legs_distance cfg route.
Proof.
  intros Hsym Hloc. unfold legs_distance.
  rewrite legs_rev, map_map. simpl.
  rewrite <- (Zsum_rev (map _ (legs route))), <- map_rev. f_equal.
  apply map_ext_in. intros [a b] Hin. simpl.
  apply in_rev, legs_In in Hin. destruct Hin as [Ha Hb].
  rewrite Forall_forall in Hloc. apply Hsym; auto.
Qed.

(** X6. On a table that gives the same distance both ways, a route of
    locations taken backwards has the same distance. *)
Theorem route_distance_backwards (cfg : Config) (route : list Z) :
  tables_cover cfg ->
  symmetric_table cfg ->
  Forall (location cfg) route ->
  calculate_route_distance cfg (rev route) = calculate_route_distance cfg route.
Proof.
  intros Hcover Hsym Hloc.
  assert (Forall (location cfg) (rev route)) as Hloc'.
  { apply Forall_forall. intros x Hx. apply in_rev in Hx.
    rewrite Forall_forall in Hloc. auto. }
  destruct (calculate_route_distance_sums_legs cfg _ Hcover Hloc) as [-> _].
  destruct (calculate_route_distance_sums_legs cfg _ Hcover Hloc') as [-> _].
  now rewrite legs_distance_rev.
Qed.

Lemma reference_symmetric : symmetric_table reference.
Proof.
  intros a b Ha Hb. unfold location in Ha, Hb. simpl in Ha, Hb.
  assert (a = 0 \/ a = 1 \/ a = 2 \/ a = 3 \/ a = 4 \/ a = 5 \/ a = 6 \/ a = 7) as Ea by lia.
  assert (b = 0 \/ b = 1 \/ b = 2 \/ b = 3 \/ b = 4 \/ b = 5 \/ b = 6 \/ b = 7) as Eb by lia.
  clear Ha Hb.
  repeat (destruct Ea as [->|Ea]); try subst a;
    repeat (destruct Eb as [->|Eb]); try subst b; reflexivity.
Qed.

Lemma route_distance_backwards_witness :
  calculate_route_distance reference (rev [0; 2; 3; 5; 7])
  = calculate_route_distance reference [0; 2; 3; 5; 7].
Proof.
  apply (route_distance_backwards reference [0; 2; 3; 5; 7]).
  - exact reference_tables_cover.
  - exact reference_symmetric.
  - repeat constructor; simpl; lia.
Defined.

(** ** Indices outside the tables *)

Lemma getitem_on_axis {A : Type} (xs : list A) (i : Z) (x : A) :
  getitem xs i = Ok x -> on_axis (List.length xs) i.
Proof.
  unfold getitem, axis_index, on_axis, bind.
  destruct ((0 <=? i) && (i <? Z.of_nat (List.length xs))) eqn:E1.
  - apply andb_true_iff in E1. destruct E1 as [H1 H2].
    apply Z.leb_le in H1. apply Z.ltb_lt in H2. lia.
  - destruct ((- Z.of_nat (List.length xs) <=? i) && (i <? 0)) eqn:E2; [|discriminate].
    apply andb_true_iff in E2. destruct E2 as [H1 H2].
    apply Z.leb_le in H1. apply Z.ltb_lt in H2. lia.
Qed.

Lemma getitem_raise {A : Type} (xs : list A) (i : Z) (e : exn) :
  getitem xs i = Raise e -> e = IndexError.
Proof.
  unfold getitem, axis_index, bind.
  destruct ((0 <=? i) && (i <? Z.of_nat (List.length xs))).
  - destruct (nth_error xs (Z.to_nat i)); [discriminate|]. now intros [= <-].
  - destruct ((- Z.of_nat (List.length xs) <=? i) && (i <? 0)).
    + destruct (nth_error xs _); [discriminate|]. now intros [= <-].
    + now intros [= <-].
Qed.

Lemma getitem2_on_axis (cfg : Config) (n : nat) (a b d : Z) :
  square_distances cfg n ->
  getitem2 (DISTANCES_KM cfg) a b = Ok d -> on_axis n a /\ on_axis n b.
Proof.
  intros [Hrows Hcols]. unfold getitem2, bind.
  destruct (getitem (DISTANCES_KM cfg) a) as [row|] eqn:Hrow; [|discriminate].
  intros Hd. split.
  - rewrite <- Hrows. eapply getitem_on_axis. exact Hrow.
  - apply getitem_In in Hrow. rewrite Forall_forall in Hcols.
    rewrite <- (Hcols _ Hrow). eapply getitem_on_axis. exact Hd.
Qed.

Lemma getitem2_raise (m : list (list Z)) (a b : Z) (e : exn) :
  getitem2 m a b = Raise e -> e = IndexError.
Proof.
  unfold getitem2, bind. destruct (getitem m a) as [row|] eqn:Hrow.
  - apply getitem_raise.
  - intros [= <-]. eapply getitem_raise. exact Hrow.
Qed.

Lemma route_distance_loop_outcome (cfg : Config) (n : nat) (route : list Z) :
  square_distances cfg n ->
  forall total_distance,
    match route_distance_loop cfg route total_distance with
    | Ok _ => (2 <= List.length route)%nat -> Forall (on_axis n) route
    | Raise e => e = IndexError
    end.
Proof.
  intros Hsq. induction route as [|a rest IH]; intros acc.
  - simpl. lia.
  - destruct rest as [|b rest'].
    + simpl. lia.
    + change (route_distance_loop cfg (a :: b :: rest') acc)
        with (bind (getitem2 (DISTANCES_KM cfg) a b) (fun d =>
              route_distance_loop cfg (b :: rest') (wrap64 (acc + d)))).
      destruct (getitem2 (DISTANCES_KM cfg) a b) as [d|e] eqn:Hd.
      * unfold bind. specialize (IH (wrap64 (acc + d))).
        destruct (route_distance_loop cfg (b :: rest') (wrap64 (acc + d))); [|exact IH].
        intros _. destruct (getitem2_on_axis cfg n a b d Hsq Hd) as [Ha Hb].
        constructor; [exact Ha|].
        destruct rest' as [|c rest'']; [apply Forall_cons; [exact Hb|apply Forall_nil]|].
        apply IH. simpl. lia.
      * simpl. eapply getitem2_raise. exact Hd.
Qed.

Lemma route_time_loop_outcome (cfg : Config) (n : nat) (route : list Z) :
  square_distances cfg n ->
  forall total_time,
    match route_time_loop cfg route total_time with
    | Ok _ => (2 <= List.length route)%nat -> Forall (on_axis n) route
    | Raise e => e = IndexError
    end.
Proof.
  intros Hsq. induction route as [|a rest IH]; intros acc.
  - simpl. lia.
  - destruct rest as [|b rest'].
    + simpl. lia.
    + change (route_time_loop cfg (a :: b :: rest') acc)
        with (bind (getitem2 (DISTANCES_KM cfg) a b) (fun d =>
              bind (getitem (TIMES_AT_LOCATION cfg) b) (fun w =>
              route_time_loop cfg (b :: rest')
                (acc + inject_Z d / inject_Z (Zpos (VELOCIDAD_PROMEDIO_KMH cfg))
                 + inject_Z w)%Q))).
      destruct (getitem2 (DISTANCES_KM cfg) a b) as [d|e] eqn:Hd.
      * unfold bind at 1.
        destruct (getitem (TIMES_AT_LOCATION cfg) b) as [w|e] eqn:Hw.
        -- unfold bind.
           specialize (IH (acc + inject_Z d / inject_Z (Zpos (VELOCIDAD_PROMEDIO_KMH cfg))
                           + inject_Z w)%Q).
           destruct (route_time_loop cfg (b :: rest') _); [|exact IH].
           intros _. destruct (getitem2_on_axis cfg n a b d Hsq Hd) as [Ha Hb].
           constructor; [exact Ha|].
           destruct rest' as [|c rest'']; [apply Forall_cons; [exact Hb|apply Forall_nil]|].
           apply IH. simpl. lia.
        -- simpl. eapply getitem_raise. exact Hw.
      * simpl. eapply getitem2_raise. exact Hd.
Qed.

(** X7. An index outside the distance table is an [IndexError]: on a
    route of at least two entries, one of which numpy does not accept on an
    axis of the [n] by [n] table (it is below [-n] or at least [n]), both
    metrics raise [IndexError]. *)
Theorem route_metrics_raise_outside_table (cfg : Config) (n : nat) (route : list Z) :
  square_distances cfg n ->
  (2 <= List.length route)%nat ->
  Exists (fun i => ~ on_axis n i) route ->
  calculate_route_time_f64 cfg route = Raise IndexError /\
  calculate_route_distance cfg route = Raise IndexError.
Proof.
  intros Hsq Hlen Hout.
  assert (~ Forall (on_axis n) route) as Hnot.
  { intros Hall. apply Exists_exists in Hout. destruct Hout as (i & Hi & Hbad).
    rewrite Forall_forall in Hall. exact (Hbad (Hall i Hi)). }
  unfold calculate_route_time_f64, calculate_route_distance. split.
  - pose proof (route_time_loop_outcome cfg n route Hsq 0%Q) as H.
    pose proof (route_time_loops_alike cfg route 0%Q (float_of_int 0)) as Halike.
    destruct (route_time_loop cfg route 0%Q) as [t|e].
    + exfalso. exact (Hnot (H Hlen)).
    + destruct (route_time_loop_f64 cfg route (float_of_int 0)) as [f|e'];
        [contradiction|]. now subst.
  - pose proof (route_distance_loop_outcome cfg n route Hsq 0) as H.
    destruct (route_distance_loop cfg route 0) as [d|e]; [|now subst].
    exfalso. exact (Hnot (H Hlen)).
Qed.

Lemma reference_square : square_distances reference 8.
Proof. split; [reflexivity|]. simpl. repeat constructor. Qed.

Lemma route_metrics_raise_outside_table_witness :
  calculate_route_time_f64 reference [0; 2; 8] = Raise IndexError /\
  calculate_route_distance reference [0; 2; 8] = Raise IndexError.
Proof.
  apply (route_metrics_raise_outside_table reference 8 [0; 2; 8]).
  - exact reference_square.
  - simpl; lia.
  - apply Exists_cons_tl, Exists_cons_tl, Exists_cons_hd. unfold on_axis. simpl. lia.
Defined.

Lemma getitem_from_the_end {A : Type} (xs : list A) (i : Z) :
  0 <= i < Z.of_nat (List.length xs) ->
  getitem xs (i - Z.of_nat (List.length xs)) = getitem xs i.
Proof.
  intros Hi. unfold getitem, axis_index.
  assert ((0 <=? i) && (i <? Z.of_nat (List.length xs)) = true) as ->.
  { apply andb_true_iff. split; [apply Z.leb_le|apply Z.ltb_lt]; lia. }
  assert ((0 <=? i - Z.of_nat (List.length xs))
          && (i - Z.of_nat (List.length xs) <? Z.of_nat (List.length xs)) = false) as ->.
  { apply andb_false_iff. left. apply Z.leb_gt. lia. }
  assert ((- Z.of_nat (List.length xs) <=? i - Z.of_nat (List.length xs))
          && (i - Z.of_nat (List.length xs) <? 0) = true) as ->.
  { apply andb_true_iff. split; [apply Z.leb_le|apply Z.ltb_lt]; lia. }
  simpl. now replace (i - Z.of_nat (List.length xs) + Z.of_nat (List.length xs)) with i by lia.
Qed.

Lemma getitem2_from_the_end (cfg : Config) (n : nat) (a b : Z) :
  square_distances cfg n ->
  0 <= a < Z.of_nat n -> 0 <= b < Z.of_nat n ->
  getitem2 (DISTANCES_KM cfg) (a - Z.of_nat n) (b - Z.of_nat n)
  = getitem2 (DISTANCES_KM cfg) a b.
Proof.
  intros [Hrows Hcols] Ha Hb. unfold getitem2.
  rewrite <- Hrows at 1. rewrite getitem_from_the_end by (rewrite Hrows; lia).
  destruct (getitem (DISTANCES_KM cfg) a) as [row|] eqn:Hrow; [|reflexivity].
  simpl. apply getitem_In in Hrow. rewrite Forall_forall in Hcols.
  rewrite <- (Hcols _ Hrow) at 1. apply getitem_from_the_end.
  rewrite (Hcols _ Hrow). lia.
Qed.

(** X8. Negative indices are not refused: they count from the end of the
    tables.  A route written with [i - n] for every location [i] of an [n] by
    [n] instance has the time and the distance of the route itself. *)
Theorem route_metrics_count_from_the_end (cfg : Config) (n : nat) (route : list Z) :
  square_distances cfg n ->
  List.length (TIMES_AT_LOCATION cfg) = n ->
  Forall (fun i => 0 <= i < Z.of_nat n) route ->
  calculate_route_time_f64 cfg (map (fun i => i - Z.of_nat n) route)
    = calculate_route_time_f64 cfg route /\
  calculate_route_distance cfg (map (fun i => i - Z.of_nat n) route)
    = calculate_route_distance cfg route.
Proof.
  intros Hsq Htimes Hroute. unfold calculate_route_time_f64, calculate_route_distance.
  generalize (float_of_int 0) as t0. generalize 0 as d0.
  induction route as [|a rest IH]; intros d0 t0; [split; reflexivity|].
  destruct rest as [|b rest']; [split; reflexivity|].
  inversion Hroute as [|? ? Ha Hrest]; subst.
  inversion Hrest as [|? ? Hb _]; subst.
  pose proof (getitem2_from_the_end cfg _ a b Hsq Ha Hb) as H2.
  assert (getitem (TIMES_AT_LOCATION cfg) (b - Z.of_nat (List.length (TIMES_AT_LOCATION cfg)))
          = getitem (TIMES_AT_LOCATION cfg) b) as H1.
  { apply getitem_from_the_end. lia. }
  set (n := List.length (TIMES_AT_LOCATION cfg)) in *.
  change (map (fun i => i - Z.of_nat n) (a :: b :: rest'))
    with ((a - Z.of_nat n) :: map (fun i => i - Z.of_nat n) (b :: rest')).
  split.
  - change (route_time_loop_f64 cfg (a :: b :: rest') t0)
      with (bind (getitem2 (DISTANCES_KM cfg) a b) (fun d =>
            bind (getitem (TIMES_AT_LOCATION cfg) b) (fun w =>
            route_time_loop_f64 cfg (b :: rest')
              (PrimFloat.add
                 (PrimFloat.add t0
                    (PrimFloat.div (float_of_int d)
                       (float_of_int (Zpos (VELOCIDAD_PROMEDIO_KMH cfg)))))
                 (float_of_int w))))).
    change (route_time_loop_f64 cfg
              ((a - Z.of_nat n) :: map (fun i => i - Z.of_nat n) (b :: rest')) t0)
      with (bind (getitem2 (DISTANCES_KM cfg) (a - Z.of_nat n) (b - Z.of_nat n)) (fun d =>
            bind (getitem (TIMES_AT_LOCATION cfg) (b - Z.of_nat n)) (fun w =>
            route_time_loop_f64 cfg (map (fun i => i - Z.of_nat n) (b :: rest'))
              (PrimFloat.add
                 (PrimFloat.add t0
                    (PrimFloat.div (float_of_int d)
                       (float_of_int (Zpos (VELOCIDAD_PROMEDIO_KMH cfg)))))
                 (float_of_int w))))).
    rewrite H2, H1.
    destruct (getitem2 (DISTANCES_KM cfg) a b) as [d|]; [|reflexivity].
    unfold bind at 1 3.
    destruct (getitem (TIMES_AT_LOCATION cfg) b) as [w|]; [|reflexivity].
    unfold bind. apply (proj1 (IH Hrest d0 _)).
  - change (route_distance_loop cfg (a :: b :: rest') d0)
      with (bind (getitem2 (DISTANCES_KM cfg) a b) (fun d =>
            route_distance_loop cfg (b :: rest') (wrap64 (d0 + d)))).
    change (route_distance_loop cfg
              ((a - Z.of_nat n) :: map (fun i => i - Z.of_nat n) (b :: rest')) d0)
      with (bind (getitem2 (DISTANCES_KM cfg) (a - Z.of_nat n) (b - Z.of_nat n)) (fun d =>
            route_distance_loop cfg (map (fun i => i - Z.of_nat n) (b :: rest'))
              (wrap64 (d0 + d)))).
    rewrite H2.
    destruct (getitem2 (DISTANCES_KM cfg) a b) as [d|]; [|reflexivity].
    unfold bind. apply (proj2 (IH Hrest _ t0)).
Qed.

Lemma route_metrics_count_from_the_end_witness :
  calculate_route_time_f64 reference (map (fun i => i - Z.of_nat 8) [7; 4; 7])
    = calculate_route_time_f64 reference [7; 4; 7] /\
  calculate_route_distance reference (map (fun i => i - Z.of_nat 8) [7; 4; 7])
    = calculate_route_distance reference [7; 4; 7].
Proof.
  apply (route_metrics_count_from_the_end reference 8 [7; 4; 7]).
  - exact reference_square.
  - reflexivity.
  - repeat constructor; simpl; lia.
Defined.

(** ** The search, further *)

Lemma anchors_inv (cfg : Config) (a h n : Z) :
  anchors cfg = Ok (a, h, n) ->
  get_location_index cfg "Aeropuerto" = Ok a /\
  get_location_index cfg "Hotel" = Ok h /\
  get_location_index cfg "NASA" = Ok n.
Proof.
  unfold anchors, bind.
  destruct (get_location_index cfg "Aeropuerto"); [|discriminate].
  destruct (get_location_index cfg "Hotel"); [|discriminate].
  destruct (get_location_index cfg "NASA"); [|discriminate].
  now intros [= -> -> ->].
Qed.

Lemma candidate_inv (cfg : Config) (routes : list (list Z)) :
  In routes (candidates cfg) ->
  exists a h n c,
    anchors cfg = Ok (a, h, n) /\ In c (enumeration cfg) /\
    routes = day_assignment a h n c.
Proof.
  unfold candidates. destruct (anchors cfg) as [[[a h] n]|] eqn:Hanchors; [|intros []].
  intros Hin. apply in_map_iff in Hin. destruct Hin as (c & <- & Hc).
  now exists a, h, n, c.
Qed.

Lemma candidate_locations (cfg : Config) (routes : list (list Z)) :
  well_formed cfg -> In routes (candidates cfg) ->
  Forall (Forall (location cfg)) routes /\
  Forall (fun route => intermediate route <> []) routes.
Proof.
  intros Hwf Hin.
  destruct (candidate_inv cfg routes Hin) as (a & h & n & c & Hanchors & Hc & ->).
  destruct (anchors_ok cfg Hwf) as (a' & h' & n' & Hanchors' & Ha & Hh & Hn).
  rewrite Hanchors in Hanchors'. injection Hanchors' as <- <- <-.
  destruct (enumeration_locations cfg c Hc) as [Hd1 Hd3].
  destruct (enumeration_shares_out cfg a h n c Hanchors Hc) as [_ Hstops].
  destruct Hstops as (r1 & r2 & r3 & Heq & [Hs1 _] & [Hs3 _]).
  unfold day_assignment in Heq |- *. injection Heq as <- <- <-.
  assert (forall x y stops, location cfg x -> location cfg y ->
            Forall (location cfg) stops -> Forall (location cfg) (x :: stops ++ [y]))
    as Hroute.
  { intros x y stops Hx Hy Hs. apply Forall_cons; [exact Hx|].
    apply Forall_app. split; [exact Hs|]. apply Forall_cons; [exact Hy|apply Forall_nil]. }
  split.
  - apply Forall_cons; [now apply Hroute|].
    apply Forall_cons; [now apply (Hroute h h [n]), Forall_cons|].
    apply Forall_cons; [now apply Hroute|apply Forall_nil].
  - apply Forall_cons; [intros Hempty; apply (f_equal (@List.length Z)) in Hempty; simpl in Hempty, Hs1; lia|].
    apply Forall_cons; [discriminate|].
    apply Forall_cons; [intros Hempty; apply (f_equal (@List.length Z)) in Hempty; simpl in Hempty, Hs3; lia|].
    apply Forall_nil.
Qed.

Lemma returned_is_candidate (cfg : Config) (routes : list (list Z)) (s : state) :
  find_best_routes cfg = Ok (Some routes, s) -> In routes (candidates cfg).
Proof.
  intros Hrun. destruct (find_best_routes_some cfg routes s Hrun) as [Hfirst _].
  destruct Hfirst as (before & after & d & Hsplit & _).
  rewrite Hsplit. apply in_app_iff. right. now left.
Qed.

(** ** How many combinations *)

Lemma flat_map_length_const {A B : Type} (f : A -> list B) (xs : list A) (k m : nat) :
  (forall x, In x xs -> (List.length (f x) * k = m)%nat) ->
  (List.length (flat_map f xs) * k = List.length xs * m)%nat.
Proof.
  induction xs as [|x xs IH]; intros Hf; simpl; [reflexivity|].
  rewrite length_app, Nat.mul_add_distr_r, (Hf x (or_introl eq_refl)), IH; [lia|].
  intros y Hy. apply Hf. now right.
Qed.

Lemma picks_length {A : Type} (pool : list A) :
  List.length (picks pool) = List.length pool /\
  forall p, In p (picks pool) -> S (List.length (snd p)) = List.length pool.
Proof.
  induction pool as [|x pool [IHlen IHrest]]; simpl.
  - split; [reflexivity|]. intros p [].
  - rewrite length_map, IHlen. split; [reflexivity|].
    intros p [<- | Hin]; [reflexivity|].
    apply in_map_iff in Hin. destruct Hin as (q & <- & Hq).
    simpl. now rewrite (IHrest q Hq).
Qed.

(** There are n! / (n - r)! arrangements of [r] out of [n]. *)
Lemma permutations_length {A : Type} (r : nat) :
  forall pool : list A,
    (r <= List.length pool)%nat ->
    (List.length (permutations pool r) * fact (List.length pool - r)
     = fact (List.length pool))%nat.
Proof.
  induction r as [|r IH]; intros pool Hr; simpl permutations.
  - simpl. rewrite Nat.sub_0_r. lia.
  - destruct (picks_length pool) as [Hlen Hrest].
    rewrite (flat_map_length_const _ _ _ (fact (List.length pool - 1))).
    + rewrite Hlen. destruct pool as [|x pool]; [simpl in Hr; lia|].
      simpl List.length. replace (S (List.length pool) - 1)%nat with (List.length pool) by lia.
      simpl fact. lia.
    + intros p Hp. rewrite length_map. specialize (Hrest p Hp).
      replace (List.length pool - S r)%nat with (List.length (snd p) - r)%nat by lia.
      replace (List.length pool - 1)%nat with (List.length (snd p)) by lia.
      apply IH. lia.
Qed.

Lemma combinations_length (places : list Z) :
  NoDup places ->
  List.length (combinations places)
  = ((List.length places - 1) * fact (List.length places))%nat.
Proof.
  intros Hnd. unfold combinations.
  pose proof (flat_map_length_const
    (fun day1_size =>
       flat_map (fun day1_places =>
         map (fun day3_places => (day1_places, day3_places))
             (permutations (day3_places_set places day1_places)
                (List.length (day3_places_set places day1_places))))
         (permutations places day1_size))
    (seq 1 (List.length places - 1)) 1 (fact (List.length places))) as Hcount.
  rewrite Nat.mul_1_r, length_seq in Hcount. apply Hcount. clear Hcount.
  intros k Hk. apply in_seq in Hk. rewrite Nat.mul_1_r.
  rewrite <- (permutations_length k places) by lia.
  rewrite <- (Nat.mul_1_r (List.length (flat_map _ _))).
  apply flat_map_length_const. intros d1 Hd1. rewrite Nat.mul_1_r, length_map.
  pose proof (permutations_length
                (List.length (day3_places_set places d1))
                (day3_places_set places d1) (Nat.le_refl _)) as Hfull.
  rewrite Nat.sub_diag in Hfull. simpl fact in Hfull at 1. rewrite Nat.mul_1_r in Hfull.
  rewrite Hfull. f_equal.
  destruct (permutations_sound k places d1 Hd1) as (Hlen & rest & Hperm).
  assert (NoDup (d1 ++ rest)) as Hnd'.
  { eapply Permutation_NoDup; [symmetry; exact Hperm|exact Hnd]. }
  assert (Permutation (d1 ++ day3_places_set places d1) places) as Hall.
  { apply day3_places_set_perm; [exact Hnd|now apply NoDup_app_remove_r in Hnd'|].
    intros x Hx. eapply Permutation_in; [exact Hperm|]. apply in_app_iff. now left. }
  apply Permutation_length in Hall. rewrite length_app in Hall. lia.
Qed.

(** ** The search on binary64 *)

Section Combination64.

Variable cfg : Config.
Variables a h n : Z.

Lemma exceeds_f64_false (route : list Z) (t : float) :
  calculate_route_time_f64 cfg route = Ok t -> exceeds_f64 cfg t = false ->
  passes_f64 cfg route.
Proof. intros Ht He. now exists t. Qed.

Lemma exceeds_f64_true (route : list Z) (t : float) :
  calculate_route_time_f64 cfg route = Ok t -> exceeds_f64 cfg t = true ->
  ~ passes_f64 cfg route.
Proof.
  intros Ht He (t' & Ht' & He'). rewrite Ht in Ht'. injection Ht' as <-. congruence.
Qed.

Lemma combination_f64_next (c : list Z * list Z) (s s' : state) :
  combination_f64 cfg a h n (fst c) (snd c) s = Next s' ->
  (~ feasible_f64 cfg (day_assignment a h n c) /\ s' = enter c s) \/
  (exists d,
     feasible_f64 cfg (day_assignment a h n c) /\
     total_distance cfg (day_assignment a h n c) = Ok d /\
     ((lt_bound d (best_total_distance s) = true /\
       s' = record (day_assignment a h n c) d (enter c s)) \/
      (lt_bound d (best_total_distance s) = false /\ s' = enter c s))).
Proof.
  destruct c as [day1_places day3_places].
  unfold combination_f64, day_assignment, total_distance, try. simpl fst. simpl snd.
  set (day1_route := [a] ++ day1_places ++ [h]).
  set (day3_route := [h] ++ day3_places ++ [a]).
  set (s1 := enter (day1_places, day3_places) s).
  destruct (calculate_route_time_f64 cfg day1_route) as [t1|] eqn:H1; [|discriminate].
  destruct (exceeds_f64 cfg t1) eqn:E1.
  { intros [= <-]. left. split; [|reflexivity].
    intros Hf. inversion Hf as [|? ? Hw _]; subst.
    exact (exceeds_f64_true _ _ H1 E1 Hw). }
  destruct (calculate_route_time_f64 cfg [h; n; h]) as [t2|] eqn:H2; [|discriminate].
  destruct (exceeds_f64 cfg t2) eqn:E2; [discriminate|].
  destruct (calculate_route_time_f64 cfg day3_route) as [t3|] eqn:H3; [|discriminate].
  destruct (exceeds_f64 cfg t3) eqn:E3.
  { intros [= <-]. left. split; [|reflexivity].
    intros Hf. inversion Hf as [|? ? _ Hf2]; subst.
    inversion Hf2 as [|? ? _ Hf3]; subst.
    inversion Hf3 as [|? ? Hw _]; subst.
    exact (exceeds_f64_true _ _ H3 E3 Hw). }
  destruct (calculate_route_distance cfg day1_route) as [d1|]; [|discriminate].
  destruct (calculate_route_distance cfg [h; n; h]) as [d2|]; [|discriminate].
  destruct (calculate_route_distance cfg day3_route) as [d3|]; [|discriminate].
  simpl bind.
  assert (feasible_f64 cfg [day1_route; [h; n; h]; day3_route]) as Hf.
  { repeat constructor; eapply exceeds_f64_false; eassumption. }
  change (best_total_distance s1) with (best_total_distance s).
  destruct (lt_bound _ (best_total_distance s)) eqn:Hlt; intros [= <-]; right;
    eexists; (split; [exact Hf|]); (split; [reflexivity|]); [left|right]; auto.
Qed.

Lemma combination_f64_return (c : list Z * list Z) (s : state)
    (v : option (list (list Z))) (s' : state) :
  combination_f64 cfg a h n (fst c) (snd c) s = Return v s' ->
  v = None /\ s' = print error_day2 (enter c s) /\
  passes_f64 cfg ([a] ++ fst c ++ [h]) /\ ~ passes_f64 cfg [h; n; h].
Proof.
  destruct c as [day1_places day3_places].
  unfold combination_f64, try. simpl fst. simpl snd.
  set (day1_route := [a] ++ day1_places ++ [h]).
  set (day3_route := [h] ++ day3_places ++ [a]).
  destruct (calculate_route_time_f64 cfg day1_route) as [t1|] eqn:H1; [|discriminate].
  destruct (exceeds_f64 cfg t1) eqn:E1; [discriminate|].
  destruct (calculate_route_time_f64 cfg [h; n; h]) as [t2|] eqn:H2; [|discriminate].
  destruct (exceeds_f64 cfg t2) eqn:E2.
  { intros [= <- <-]. repeat split.
    - eapply exceeds_f64_false; eassumption.
    - eapply exceeds_f64_true; eassumption. }
  destruct (calculate_route_time_f64 cfg day3_route) as [t3|]; [|discriminate].
  destruct (exceeds_f64 cfg t3); [discriminate|].
  destruct (calculate_route_distance cfg day1_route) as [d1|]; [|discriminate].
  destruct (calculate_route_distance cfg [h; n; h]) as [d2|]; [|discriminate].
  destruct (calculate_route_distance cfg day3_route) as [d3|]; [|discriminate].
  destruct (lt_bound _ _); discriminate.
Qed.

Lemma combination_f64_no_throw (c : list Z * list Z) (s : state) :
  tables_cover cfg ->
  location cfg a -> location cfg h -> location cfg n ->
  Forall (location cfg) (fst c) -> Forall (location cfg) (snd c) ->
  forall e, combination_f64 cfg a h n (fst c) (snd c) s <> Throw e.
Proof.
  intros Hcover Ha Hh Hn Hd1 Hd3 e.
  assert (Forall (location cfg) ([a] ++ fst c ++ [h])) as H1.
  { apply Forall_app. split; [now constructor|].
    apply Forall_app. split; [exact Hd1|now constructor]. }
  assert (Forall (location cfg) [h; n; h]) as H2
    by (repeat (apply Forall_cons; [assumption|]); apply Forall_nil).
  assert (Forall (location cfg) ([h] ++ snd c ++ [a])) as H3.
  { apply Forall_app. split; [now constructor|].
    apply Forall_app. split; [exact Hd3|now constructor]. }
  unfold combination_f64, try.
  destruct (calculate_route_time_f64_ok cfg _ Hcover H1) as [t1 ->].
  destruct (exceeds_f64 cfg t1); [discriminate|].
  destruct (calculate_route_time_f64_ok cfg _ Hcover H2) as [t2 ->].
  destruct (exceeds_f64 cfg t2); [discriminate|].
  destruct (calculate_route_time_f64_ok cfg _ Hcover H3) as [t3 ->].
  destruct (exceeds_f64 cfg t3); [discriminate|].
  destruct (calculate_route_distance_ok cfg Hcover _ H1) as [d1 ->].
  destruct (calculate_route_distance_ok cfg Hcover _ H2) as [d2 ->].
  destruct (calculate_route_distance_ok cfg Hcover _ H3) as [d3 ->].
  destruct (lt_bound _ _); discriminate.
Qed.

End Combination64.

Lemma search_invariant_f64_step (cfg : Config) (a h n : Z)
    (pre : list (list Z * list Z)) (x : list Z * list Z) (s s' : state) :
  search_invariant_f64 cfg a h n pre s ->
  combination_f64 cfg a h n (fst x) (snd x) s = Next s' ->
  search_invariant_f64 cfg a h n (pre ++ [x]) s'.
Proof.
  intros (Hex & Hout & Hbest) Hstep.
  apply combination_f64_next in Hstep.
  destruct Hstep as [[Hnot ->] | (dx & Hfx & Hdx & [[Hlt ->] | [Hlt ->]])].
  - (* skipped *)
    split; [simpl; now rewrite Hex|]. split; [exact Hout|]. simpl.
    destruct (best_routes_combination s) as [routes|].
    + destruct Hbest as [(before & after & d & Hpre & Hf & Hd & Hb & Ha) Hrec].
      split; [|exact Hrec].
      exists before, (after ++ [day_assignment a h n x]), d.
      rewrite map_app, Hpre. simpl. rewrite <- app_assoc. simpl.
      repeat split; auto. intros r Hr Hfr.
      apply in_app_or in Hr. destruct Hr as [Hr | [<- | []]]; [now apply Ha|].
      contradiction.
    + destruct Hbest as [Hinf Hnone]. split; [exact Hinf|].
      intros c Hc. apply in_app_or in Hc. destruct Hc as [Hc | [<- | []]]; auto.
  - (* recorded as the new best *)
    split; [simpl; now rewrite Hex|]. split; [exact Hout|]. simpl.
    split; [|now exists dx].
    exists (map (day_assignment a h n) pre), [], dx.
    rewrite map_app. simpl. repeat split; auto; [|intros r []].
    intros r Hr Hfr.
    destruct (best_routes_combination s) as [routes|].
    + destruct Hbest as [(before & after & d & Hpre & Hf & Hd & Hb & Ha) (d0 & Hd0 & Hrec)].
      rewrite Hd in Hd0. injection Hd0 as <-.
      rewrite Hrec in Hlt. simpl in Hlt. apply Z.ltb_lt in Hlt.
      rewrite Hpre in Hr. apply in_app_or in Hr. destruct Hr as [Hr | [<- | Hr]].
      * destruct (Hb r Hr Hfr) as (d' & Hd' & Hlt'). exists d'. split; [exact Hd'|lia].
      * exists d. split; [exact Hd|lia].
      * destruct (Ha r Hr Hfr) as (d' & Hd' & Hle'). exists d'. split; [exact Hd'|lia].
    + destruct Hbest as [_ Hnone]. apply in_map_iff in Hr.
      destruct Hr as (c & <- & Hc). exfalso. exact (Hnone c Hc Hfr).
  - (* not better than the recorded best *)
    split; [simpl; now rewrite Hex|]. split; [exact Hout|]. simpl.
    destruct (best_routes_combination s) as [routes|].
    + destruct Hbest as [(before & after & d & Hpre & Hf & Hd & Hb & Ha) (d0 & Hd0 & Hrec)].
      split; [|now exists d0].
      rewrite Hd in Hd0. injection Hd0 as <-.
      rewrite Hrec in Hlt. simpl in Hlt. apply Z.ltb_ge in Hlt.
      exists before, (after ++ [day_assignment a h n x]), d.
      rewrite map_app, Hpre. simpl. rewrite <- app_assoc. simpl.
      repeat split; auto. intros r Hr Hfr.
      apply in_app_or in Hr. destruct Hr as [Hr | [<- | []]]; [now apply Ha|].
      exists dx. split; [exact Hdx|lia].
    + destruct Hbest as [Hinf _]. rewrite Hinf in Hlt. discriminate.
Qed.

Lemma search_invariant_f64_initial (cfg : Config) (a h n : Z) :
  search_invariant_f64 cfg a h n [] initial.
Proof. repeat split. intros c []. Qed.

Lemma search_f64_next (cfg : Config) (a h n : Z) (s : state) :
  search_f64 cfg a h n initial = Next s ->
  search_invariant_f64 cfg a h n (combinations (places_to_visit cfg a h n)) s.
Proof.
  rewrite search_f64_combinations. intros Hrun.
  apply (for_each_invariant (search_invariant_f64 cfg a h n)
           (fun c => combination_f64 cfg a h n (fst c) (snd c))
           (combinations (places_to_visit cfg a h n))
           (search_invariant_f64_step cfg a h n) [] initial s
           (search_invariant_f64_initial cfg a h n) Hrun).
Qed.

Lemma search_f64_return (cfg : Config) (a h n : Z) (v : option (list (list Z))) (s : state) :
  search_f64 cfg a h n initial = Return v s ->
  v = None /\ stdout s = [error_day2] /\ ~ passes_f64 cfg [h; n; h] /\
  exists pre x post,
    combinations (places_to_visit cfg a h n) = pre ++ x :: post /\
    examined s = pre ++ [x] /\
    passes_f64 cfg ([a] ++ fst x ++ [h]).
Proof.
  rewrite search_f64_combinations. intros Hrun.
  apply for_each_return in Hrun.
  destruct Hrun as (pre & x & post & s1 & Hsplit & Hpre & Hx).
  apply combination_f64_return in Hx. destruct Hx as (-> & -> & Hday1 & Hday2).
  pose proof (for_each_invariant (search_invariant_f64 cfg a h n) _ pre
                (search_invariant_f64_step cfg a h n) [] initial s1
                (search_invariant_f64_initial cfg a h n) Hpre) as (Hex & Hout & _).
  split; [reflexivity|]. split; [simpl; now rewrite Hout|]. split; [exact Hday2|].
  exists pre, x, post. split; [exact Hsplit|]. split; [|exact Hday1].
  simpl. now rewrite Hex.
Qed.

Lemma find_best_routes_f64_anchors (cfg : Config) (a h n : Z) :
  anchors cfg = Ok (a, h, n) ->
  find_best_routes_f64 cfg =
  match search_f64 cfg a h n initial with
  | Next s => Ok (best_routes_combination s, s)
  | Return v s => Ok (v, s)
  | Throw e => Raise e
  end.
Proof.
  unfold anchors, find_best_routes_f64, bind.
  destruct (get_location_index cfg "Aeropuerto"); [|discriminate].
  destruct (get_location_index cfg "Hotel"); [|discriminate].
  destruct (get_location_index cfg "NASA"); [|discriminate].
  now intros [= -> -> ->].
Qed.

(** The ways a run of the search can end without raising. *)
Lemma find_best_routes_f64_inv (cfg : Config) (v : option (list (list Z))) (s : state) :
  find_best_routes_f64 cfg = Ok (v, s) ->
  exists a h n,
    anchors cfg = Ok (a, h, n) /\
    ((search_f64 cfg a h n initial = Next s /\ v = best_routes_combination s) \/
     (search_f64 cfg a h n initial = Return v s)).
Proof.
  unfold find_best_routes_f64, anchors, bind.
  destruct (get_location_index cfg "Aeropuerto") as [a|]; [|discriminate].
  destruct (get_location_index cfg "Hotel") as [h|]; [|discriminate].
  destruct (get_location_index cfg "NASA") as [n|]; [|discriminate].
  destruct (search_f64 cfg a h n initial) as [s1|v1 s1|] eqn:Hrun; [| |discriminate].
  - intros [= <- <-]. exists a, h, n. split; [reflexivity|]. left. now split.
  - intros [= <- <-]. exists a, h, n. split; [reflexivity|]. now right.
Qed.

Lemma find_best_routes_f64_some (cfg : Config) (routes : list (list Z)) (s : state) :
  find_best_routes_f64 cfg = Ok (Some routes, s) ->
  first_of_the_best_f64 cfg (candidates cfg) routes /\
  examined s = enumeration cfg /\ stdout s = [].
Proof.
  intros Hrun. apply find_best_routes_f64_inv in Hrun.
  destruct Hrun as (a & h & n & Hanchors & [[Hnext Hv] | Hret]).
  - apply search_f64_next in Hnext. destruct Hnext as (Hex & Hout & Hbest).
    rewrite <- Hv in Hbest. destruct Hbest as [Hfirst _].
    unfold candidates, enumeration, free_locations. rewrite Hanchors.
    split; [exact Hfirst|]. split; [exact Hex|exact Hout].
  - apply search_f64_return in Hret. destruct Hret as [Hnone _]. discriminate.
Qed.

Lemma find_best_routes_f64_none (cfg : Config) (s : state) :
  find_best_routes_f64 cfg = Ok (None, s) ->
  (stdout s = [] \/ stdout s = [error_day2]) /\
  forall routes, In routes (candidates cfg) -> ~ feasible_f64 cfg routes.
Proof.
  intros Hrun.
  destruct (find_best_routes_f64_inv cfg None s Hrun) as (a & h & n & Hanchors & Hend).
  destruct Hend as [[Hnext Hv] | Hret].
  - apply search_f64_next in Hnext. destruct Hnext as (_ & Hout & Hbest).
    split; [now left|]. intros routes Hin Hf.
    unfold candidates, enumeration, free_locations in Hin. rewrite Hanchors in Hin.
    apply in_map_iff in Hin. destruct Hin as (c & <- & Hc).
    rewrite <- Hv in Hbest. destruct Hbest as [_ Hnone]. exact (Hnone c Hc Hf).
  - apply search_f64_return in Hret. destruct Hret as (_ & Hout & Hday2 & _).
    split; [now right|]. intros routes Hin Hf.
    unfold candidates in Hin. rewrite Hanchors in Hin.
    apply in_map_iff in Hin. destruct Hin as (c & <- & Hc).
    unfold day_assignment in Hf.
    inversion Hf as [|? ? _ Hf2]; subst. inversion Hf2 as [|? ? Hw _]; subst.
    exact (Hday2 Hw).
Qed.

Lemma find_best_routes_f64_returns (cfg : Config) :
  well_formed cfg -> exists v s, find_best_routes_f64 cfg = Ok (v, s).
Proof.
  intros Hwf.
  destruct (anchors_ok cfg Hwf) as (a & h & n & Hanchors & Ha & Hh & Hn).
  rewrite (find_best_routes_f64_anchors cfg a h n Hanchors).
  destruct (search_f64 cfg a h n initial) as [s|v s|e] eqn:Hrun.
  - now exists (best_routes_combination s), s.
  - now exists v, s.
  - exfalso. rewrite search_f64_combinations in Hrun. revert Hrun.
    apply for_each_no_throw. intros c Hc s e'.
    assert (In c (enumeration cfg)) as Hc'.
    { unfold enumeration, free_locations. now rewrite Hanchors. }
    destruct (enumeration_locations cfg c Hc') as [Hd1 Hd3].
    now apply combination_f64_no_throw; [apply Hwf| | | | |].
Qed.

(** X9. The search as the script runs it, its ceiling tests made on the
    binary64 times.  The routes it returns are a DayAssignment of the
    enumeration whose three routes pass the ceiling test; their total
    distance is the least among the DayAssignments of the enumeration whose
    three routes pass it, and strictly less than that of every such one the
    enumeration has before it. *)
Theorem binary64_search_returns_the_first_of_the_best (cfg : Config)
    (routes : list (list Z)) (s : state) :
  find_best_routes_f64 cfg = Ok (Some routes, s) ->
  exists before after d,
    candidates cfg = before ++ routes :: after /\
    feasible_f64 cfg routes /\
    total_distance cfg routes = Ok d /\
    (forall other, In other (candidates cfg) -> feasible_f64 cfg other ->
                   exists d', total_distance cfg other = Ok d' /\ d <= d') /\
    (forall other, In other before -> feasible_f64 cfg other ->
                   exists d', total_distance cfg other = Ok d' /\ d < d').
Proof.
  intros Hrun.
  destruct (find_best_routes_f64_some cfg routes s Hrun) as (Hfirst & _).
  destruct Hfirst as (before & after & d & Hsplit & Hf & Hd & Hb & Ha).
  exists before, after, d. repeat split; auto.
  intros other Hin Hfo. rewrite Hsplit in Hin.
  apply in_app_or in Hin. destruct Hin as [Hin | [<- | Hin]].
  - destruct (Hb other Hin Hfo) as (d' & Hd' & Hlt). exists d'. split; [exact Hd'|lia].
  - exists d. split; [exact Hd|lia].
  - exact (Ha other Hin Hfo).
Qed.

Lemma binary64_search_returns_the_first_of_the_best_witness :
  exists before after d,
    candidates reference = before ++ reference_routes :: after /\
    feasible_f64 reference reference_routes /\
    total_distance reference reference_routes = Ok d /\
    (forall other, In other (candidates reference) -> feasible_f64 reference other ->
                   exists d', total_distance reference other = Ok d' /\ d <= d') /\
    (forall other, In other before -> feasible_f64 reference other ->
                   exists d', total_distance reference other = Ok d' /\ d < d').
Proof.
  apply (binary64_search_returns_the_first_of_the_best reference
           reference_routes reference_final).
  vm_compute. reflexivity.
Defined.

(** X10. On a well-formed instance the search on binary64 raises nothing,
    and it returns [None] exactly when no DayAssignment of the enumeration
    has its three routes pass the ceiling test. *)
Theorem binary64_search_none_exactly_when_nothing_passes (cfg : Config) :
  well_formed cfg ->
  exists v s,
    find_best_routes_f64 cfg = Ok (v, s) /\
    (v = None <-> forall routes, In routes (candidates cfg) -> ~ feasible_f64 cfg routes).
Proof.
  intros Hwf. destruct (find_best_routes_f64_returns cfg Hwf) as (v & s & Hrun).
  exists v, s. split; [exact Hrun|]. split.
  - intros ->. exact (proj2 (find_best_routes_f64_none cfg s Hrun)).
  - intros Hnone. destruct v as [routes|]; [|reflexivity]. exfalso.
    destruct (find_best_routes_f64_some cfg routes s Hrun) as [Hfirst _].
    destruct Hfirst as (before & after & d & Hsplit & Hf & _).
    apply (Hnone routes); [|exact Hf].
    rewrite Hsplit. apply in_app_iff. right. now left.
Qed.

Lemma binary64_search_none_exactly_when_nothing_passes_witness :
  exists v s,
    find_best_routes_f64 ceiling_10 = Ok (v, s) /\
    (v = None <->
     forall routes, In routes (candidates ceiling_10) -> ~ feasible_f64 ceiling_10 routes).
Proof.
  apply (binary64_search_none_exactly_when_nothing_passes ceiling_10).
  exact reference_well_formed.
Defined.

Lemma missing_name_raises_f64 (cfg : Config) :
  ~ (In "Aeropuerto"%string (LOCATIONS cfg) /\
     In "Hotel"%string (LOCATIONS cfg) /\
     In "NASA"%string (LOCATIONS cfg)) ->
  find_best_routes_f64 cfg = Raise ValueError.
Proof.
  intros Hmissing. unfold find_best_routes_f64, bind.
  destruct (get_location_index cfg "Aeropuerto") as [a|e] eqn:Ha;
    [|apply index_from_raise in Ha; destruct Ha as [-> _]; reflexivity].
  destruct (get_location_index cfg "Hotel") as [h|e] eqn:Hh;
    [|apply index_from_raise in Hh; destruct Hh as [-> _]; reflexivity].
  destruct (get_location_index cfg "NASA") as [n|e] eqn:Hn;
    [|apply index_from_raise in Hn; destruct Hn as [-> _]; reflexivity].
  exfalso. apply Hmissing.
  apply index_from_first in Ha, Hh, Hn.
  destruct Ha as (_ & Ha & _), Hh as (_ & Hh & _), Hn as (_ & Hn & _).
  repeat split; eapply nth_error_In; eassumption.
Qed.

(** X11. When one of the three names the search looks up is not in
    [LOCATIONS], [find_best_routes] raises [ValueError]. *)
Theorem find_best_routes_raises_on_missing_name (cfg : Config) :
  ~ (In "Aeropuerto"%string (LOCATIONS cfg) /\
     In "Hotel"%string (LOCATIONS cfg) /\
     In "NASA"%string (LOCATIONS cfg)) ->
  find_best_routes_f64 cfg = Raise ValueError.
Proof. exact (missing_name_raises_f64 cfg). Qed.

Lemma find_best_routes_raises_on_missing_name_witness :
  find_best_routes_f64 no_nasa = Raise ValueError.
Proof.
  apply (find_best_routes_raises_on_missing_name no_nasa).
  simpl. intros (_ & _ & H). intuition discriminate.
Defined.

(** X12. With fewer than two free locations there is no split size to
    try: [find_best_routes] returns [None] at once, having entered no
    combination, printed nothing and read no table. *)
Theorem find_best_routes_needs_two_free_locations (cfg : Config) (a h n : Z) :
  anchors cfg = Ok (a, h, n) ->
  (List.length (free_locations cfg) <= 1)%nat ->
  find_best_routes_f64 cfg = Ok (None, initial).
Proof.
  intros Hanchors Hfew.
  rewrite (find_best_routes_f64_anchors cfg a h n Hanchors).
  unfold free_locations in Hfew. rewrite Hanchors in Hfew.
  unfold search_f64.
  replace (List.length (places_to_visit cfg a h n) - 1)%nat with 0%nat by lia.
  reflexivity.
Qed.

Lemma find_best_routes_needs_two_free_locations_witness :
  find_best_routes_f64 one_free_place = Ok (None, initial).
Proof.
  apply (find_best_routes_needs_two_free_locations one_free_place 0 3 2).
  - reflexivity.
  - simpl. lia.
Defined.

Lemma returned_f64_is_candidate (cfg : Config) (routes : list (list Z)) (s : state) :
  find_best_routes_f64 cfg = Ok (Some routes, s) -> In routes (candidates cfg).
Proof.
  intros Hrun. destruct (find_best_routes_f64_some cfg routes s Hrun) as [Hfirst _].
  destruct Hfirst as (before & after & d & Hsplit & _).
  rewrite Hsplit. apply in_app_iff. right. now left.
Qed.

(** X13. The routes returned have the fixed points of the itinerary: Day 1
    goes from the airport to the hotel, Day 2 is hotel, NASA, hotel, and Day 3
    goes from the hotel to the airport, the three being the indices of
    their names; the stops in between are those of a combination of the
    enumeration. *)
Theorem returned_routes_have_the_fixed_points (cfg : Config)
    (routes : list (list Z)) (s : state) :
  find_best_routes_f64 cfg = Ok (Some routes, s) ->
  exists a h n day1_places day3_places,
    get_location_index cfg "Aeropuerto" = Ok a /\
    get_location_index cfg "Hotel" = Ok h /\
    get_location_index cfg "NASA" = Ok n /\
    In (day1_places, day3_places) (enumeration cfg) /\
    routes = [ [a] ++ day1_places ++ [h]; [h; n; h]; [h] ++ day3_places ++ [a] ].
Proof.
  intros Hrun. pose proof (returned_f64_is_candidate cfg routes s Hrun) as Hin.
  destruct (candidate_inv cfg routes Hin) as (a & h & n & [d1 d3] & Hanchors & Hc & ->).
  destruct (anchors_inv cfg a h n Hanchors) as (Ha & Hh & Hn).
  now exists a, h, n, d1, d3.
Qed.

Lemma returned_routes_have_the_fixed_points_witness :
  exists a h n day1_places day3_places,
    get_location_index reference "Aeropuerto" = Ok a /\
    get_location_index reference "Hotel" = Ok h /\
    get_location_index reference "NASA" = Ok n /\
    In (day1_places, day3_places) (enumeration reference) /\
    reference_routes = [ [a] ++ day1_places ++ [h]; [h; n; h]; [h] ++ day3_places ++ [a] ].
Proof.
  apply (returned_routes_have_the_fixed_points reference reference_routes reference_final).
  vm_compute. reflexivity.
Defined.

(** X14. A run that returns routes has entered every combination of the
    enumeration, and they are (f - 1) * f! for f free locations. *)
Theorem a_full_run_enters_every_combination (cfg : Config)
    (routes : list (list Z)) (s : state) :
  find_best_routes_f64 cfg = Ok (Some routes, s) ->
  examined s = enumeration cfg /\
  List.length (examined s)
  = ((List.length (free_locations cfg) - 1) * fact (List.length (free_locations cfg)))%nat.
Proof.
  intros Hrun. destruct (find_best_routes_f64_some cfg routes s Hrun) as (_ & Hex & _).
  split; [exact Hex|]. rewrite Hex. unfold enumeration.
  apply combinations_length. unfold free_locations.
  destruct (anchors cfg) as [[[a h] n]|]; [apply places_to_visit_NoDup|constructor].
Qed.

Lemma a_full_run_enters_every_combination_witness :
  examined reference_final = enumeration reference /\
  List.length (examined reference_final)
  = ((List.length (free_locations reference) - 1)
     * fact (List.length (free_locations reference)))%nat.
Proof.
  apply (a_full_run_enters_every_combination reference reference_routes reference_final).
  vm_compute. reflexivity.
Defined.

(** X15. On a well-formed instance whose fixed day passes the ceiling test
    the search never returns early: it enters every combination of the
    enumeration and prints nothing. *)
Theorem fixed_day_within_ceiling_runs_to_the_end (cfg : Config) :
  well_formed cfg ->
  passes_f64 cfg (fixed_day cfg) ->
  exists v s,
    find_best_routes_f64 cfg = Ok (v, s) /\
    examined s = enumeration cfg /\
    stdout s = [].
Proof.
  intros Hwf Hday2. destruct (find_best_routes_f64_returns cfg Hwf) as (v & s & Hrun).
  exists v, s. split; [exact Hrun|].
  destruct (find_best_routes_f64_inv cfg v s Hrun) as (a & h & n & Hanchors & Hend).
  unfold fixed_day in Hday2. rewrite Hanchors in Hday2.
  destruct Hend as [[Hnext _] | Hret].
  - apply search_f64_next in Hnext. destruct Hnext as (Hex & Hout & _).
    unfold enumeration, free_locations. rewrite Hanchors. now split.
  - apply search_f64_return in Hret. destruct Hret as (_ & _ & Hover & _). contradiction.
Qed.

Lemma fixed_day_within_ceiling_runs_to_the_end_witness :
  exists v s,
    find_best_routes_f64 reference = Ok (v, s) /\
    examined s = enumeration reference /\
    stdout s = [].
Proof.
  apply (fixed_day_within_ceiling_runs_to_the_end reference).
  - exact reference_well_formed.
  - eexists. split; vm_compute; reflexivity.
Defined.

(** X16. The error line is printed only when the fixed day does not pass
    the ceiling test, and then [None] is returned, from inside the loops: the
    run has entered the combinations up to one whose Day-1 route passes the
    test, and no further.  A run that does not print the error line prints
    nothing. *)
Theorem error_line_means_fixed_day_over_ceiling (cfg : Config)
    (v : option (list (list Z))) (s : state) :
  find_best_routes_f64 cfg = Ok (v, s) ->
  stdout s = [] \/
  (stdout s = [error_day2] /\ v = None /\ ~ passes_f64 cfg (fixed_day cfg) /\
   exists pre x post a h,
     get_location_index cfg "Aeropuerto" = Ok a /\
     get_location_index cfg "Hotel" = Ok h /\
     enumeration cfg = pre ++ x :: post /\
     examined s = pre ++ [x] /\
     passes_f64 cfg ([a] ++ fst x ++ [h])).
Proof.
  intros Hrun.
  destruct (find_best_routes_f64_inv cfg v s Hrun) as (a & h & n & Hanchors & Hend).
  destruct Hend as [[Hnext _] | Hret].
  - left. apply search_f64_next in Hnext. now destruct Hnext as (_ & Hout & _).
  - right. apply search_f64_return in Hret.
    destruct Hret as (-> & Hout & Hover & pre & x & post & Hsplit & Hex & Hday1).
    split; [exact Hout|]. split; [reflexivity|].
    split; [unfold fixed_day; now rewrite Hanchors|].
    destruct (anchors_inv cfg a h n Hanchors) as (Ha & Hh & _).
    exists pre, x, post, a, h. repeat split; auto.
    unfold enumeration, free_locations. now rewrite Hanchors.
Qed.

Lemma error_line_means_fixed_day_over_ceiling_witness :
  stdout ceiling_10_final = [] \/
  (stdout ceiling_10_final = [error_day2] /\ @None (list (list Z)) = None /\
   ~ passes_f64 ceiling_10 (fixed_day ceiling_10) /\
   exists pre x post a h,
     get_location_index ceiling_10 "Aeropuerto" = Ok a /\
     get_location_index ceiling_10 "Hotel" = Ok h /\
     enumeration ceiling_10 = pre ++ x :: post /\
     examined ceiling_10_final = pre ++ [x] /\
     passes_f64 ceiling_10 ([a] ++ fst x ++ [h])).
Proof.
  apply (error_line_means_fixed_day_over_ceiling ceiling_10 None ceiling_10_final).
  vm_compute. reflexivity.
Defined.

(** ** The report *)

Lemma and_then_emit {B : Type} (l : line) (k : unit -> out B) :
  and_then (emit l) k = (l :: fst (k tt), snd (k tt)).
Proof. unfold and_then, emit. now destruct (k tt). Qed.

Lemma and_then_call_ok {A B : Type} (a : A) (k : A -> out B) :
  and_then (call (Ok a)) k = k a.
Proof. unfold and_then, call. now destruct (k a). Qed.

Lemma and_then_call_raise {A B : Type} (e : exn) (k : A -> out B) :
  and_then (@call A (Raise e)) k = ([], Raise e).
Proof. reflexivity. Qed.

Lemma and_then_ok {A B : Type} (m : out A) (k : A -> out B) (printed : list line) (a : A) :
  m = (printed, Ok a) -> and_then m k = (printed ++ fst (k a), snd (k a)).
Proof. intros ->. unfold and_then. now destruct (k a). Qed.

Lemma location_names_ok (cfg : Config) (indices : list Z) :
  Forall (location cfg) indices ->
  exists names, location_names cfg indices = Ok names /\
                List.length names = List.length indices.
Proof.
  induction indices as [|i rest IH]; intros Hloc.
  - now exists [].
  - inversion Hloc as [|? ? Hi Hrest]; subst.
    destruct (getitem_ok (LOCATIONS cfg) i Hi) as [name Hname].
    destruct (IH Hrest) as (names & Hnames & Hlen).
    exists (name :: names). simpl. rewrite Hname. simpl. rewrite Hnames. simpl.
    now rewrite Hlen.
Qed.

Lemma location_names_raise (cfg : Config) (indices : list Z) :
  Exists (fun i => ~ on_axis (List.length (LOCATIONS cfg)) i) indices ->
  location_names cfg indices = Raise IndexError.
Proof.
  induction indices as [|i rest IH]; intros Hout; [inversion Hout|].
  simpl. destruct (getitem (LOCATIONS cfg) i) as [name|e] eqn:Hname.
  - simpl. inversion Hout as [? ? Hbad | ? ? Hrest]; subst.
    + exfalso. apply Hbad. eapply getitem_on_axis. exact Hname.
    + now rewrite (IH Hrest).
  - simpl. f_equal. eapply getitem_raise. exact Hname.
Qed.

(** The segment lines of a day and the time of the day.  The loop over the
    segments makes the additions of [calculate_route_time] in the same
    order, but for the dwell time at the last stop when that stop is the
    hotel or the airport. *)
Lemma segments_spec (cfg : Config) (route : list Z) :
  tables_cover cfg ->
  Forall (location cfg) route ->
  forall acc,
  exists lines acc',
    segments cfg route acc = (lines, Ok acc') /\
    Forall (fun l => is_day_line l = true) lines /\
    List.length (filter is_travel_time_line lines) = (List.length route - 1)%nat /\
    match getitem (LOCATIONS cfg) (last route 0) with
    | Ok name =>
        if is_anchor name && (2 <=? List.length route)%nat
        then route_time_loop_f64 cfg route acc
             = Ok (PrimFloat.add acc' (float_of_int (dwellTime cfg (last route 0)))) /\
             List.length (filter is_visit_time_line lines) = (List.length route - 2)%nat
        else route_time_loop_f64 cfg route acc = Ok acc' /\
             List.length (filter is_visit_time_line lines) = (List.length route - 1)%nat
    | Raise _ => route = []
    end.
Proof.
  intros Hcover. induction route as [|a rest IH]; intros Hloc acc.
  - exists [], acc. repeat split; auto.
    destruct (getitem (LOCATIONS cfg) (last [] 0)) as [name|]; [|reflexivity].
    rewrite andb_false_r. now split.
  - destruct rest as [|b rest'].
    + exists [], acc. split; [reflexivity|]. split; [constructor|]. split; [reflexivity|].
      inversion Hloc as [|? ? Ha _]; subst.
      destruct (getitem_ok (LOCATIONS cfg) a Ha) as [name Hname].
      simpl last. rewrite Hname. rewrite andb_false_r. now split.
    + inversion Hloc as [|? ? Ha Hrest]; subst.
      inversion Hrest as [|? ? Hb _]; subst.
      destruct (getitem_ok (LOCATIONS cfg) a Ha) as [from_loc Hfrom].
      destruct (getitem_ok (LOCATIONS cfg) b Hb) as [to_loc Hto].
      destruct (getitem2_ok cfg Hcover a b Ha Hb) as [d Hd].
      destruct (dwell_ok cfg Hcover b Hb) as [w Hw].
      set (travel := PrimFloat.div (float_of_int d)
                       (float_of_int (Zpos (VELOCIDAD_PROMEDIO_KMH cfg)))).
      assert (route_time_loop_f64 cfg (a :: b :: rest') acc
              = route_time_loop_f64 cfg (b :: rest')
                  (PrimFloat.add (PrimFloat.add acc travel) (float_of_int w))) as Hloop.
      { change (route_time_loop_f64 cfg (a :: b :: rest') acc)
          with (bind (getitem2 (DISTANCES_KM cfg) a b) (fun d =>
                bind (getitem (TIMES_AT_LOCATION cfg) b) (fun w =>
                route_time_loop_f64 cfg (b :: rest')
                  (PrimFloat.add
                     (PrimFloat.add acc
                        (PrimFloat.div (float_of_int d)
                           (float_of_int (Zpos (VELOCIDAD_PROMEDIO_KMH cfg)))))
                     (float_of_int w))))).
        rewrite Hd. unfold bind at 1. rewrite Hw. reflexivity. }
      assert (forall k : out float,
                segments cfg (a :: b :: rest') acc
                = (if is_anchor to_loc && match rest' with [] => true | _ => false end
                   then and_then (emit (SegmentLine from_loc to_loc)) (fun _ =>
                        and_then (emit (TravelTimeLine travel)) (fun _ =>
                        segments cfg (b :: rest') (PrimFloat.add acc travel)))
                   else and_then (emit (SegmentLine from_loc to_loc)) (fun _ =>
                        and_then (emit (TravelTimeLine travel)) (fun _ =>
                        and_then (emit (VisitTimeLine to_loc w)) (fun _ =>
                        segments cfg (b :: rest')
                          (PrimFloat.add (PrimFloat.add acc travel) (float_of_int w))))))) as Hseg.
      { intros _.
        change (segments cfg (a :: b :: rest') acc)
          with (and_then (call (getitem (LOCATIONS cfg) a)) (fun from_loc =>
                and_then (call (getitem (LOCATIONS cfg) b)) (fun to_loc =>
                and_then (call (getitem2 (DISTANCES_KM cfg) a b)) (fun d =>
                and_then (call (getitem (TIMES_AT_LOCATION cfg) b)) (fun visit_time_h =>
                and_then (emit (SegmentLine from_loc to_loc)) (fun _ =>
                and_then (emit (TravelTimeLine
                   (PrimFloat.div (float_of_int d)
                      (float_of_int (Zpos (VELOCIDAD_PROMEDIO_KMH cfg)))))) (fun _ =>
                if is_anchor to_loc && match rest' with [] => true | _ => false end
                then segments cfg (b :: rest')
                       (PrimFloat.add acc
                          (PrimFloat.div (float_of_int d)
                             (float_of_int (Zpos (VELOCIDAD_PROMEDIO_KMH cfg)))))
                else
                  and_then (emit (VisitTimeLine to_loc visit_time_h)) (fun _ =>
                  segments cfg (b :: rest')
                    (PrimFloat.add
                       (PrimFloat.add acc
                          (PrimFloat.div (float_of_int d)
                             (float_of_int (Zpos (VELOCIDAD_PROMEDIO_KMH cfg)))))
                       (float_of_int visit_time_h)))))))))).
        rewrite Hfrom, and_then_call_ok, Hto, and_then_call_ok,
          Hd, and_then_call_ok, Hw, and_then_call_ok.
        fold travel.
        destruct (is_anchor to_loc && match rest' with [] => true | _ => false end);
          reflexivity. }
      specialize (Hseg ([], Ok acc)).
      destruct rest' as [|c rest''].
      * (* the last segment *)
        simpl last. rewrite Hto. rewrite andb_true_r in Hseg |- *.
        assert (dwellTime cfg b = w) as Hwb by (unfold dwellTime; now rewrite Hw).
        destruct (is_anchor to_loc).
        -- exists [SegmentLine from_loc to_loc; TravelTimeLine travel],
                  (PrimFloat.add acc travel).
           split; [rewrite Hseg; reflexivity|].
           split; [repeat constructor|]. split; [reflexivity|].
           split; [|reflexivity]. rewrite Hloop, Hwb. reflexivity.
        -- exists [SegmentLine from_loc to_loc; TravelTimeLine travel; VisitTimeLine to_loc w],
                  (PrimFloat.add (PrimFloat.add acc travel) (float_of_int w)).
           split; [rewrite Hseg; reflexivity|].
           split; [repeat constructor|]. split; [reflexivity|].
           split; [|reflexivity]. rewrite Hloop. reflexivity.
      * (* a segment before the last *)
        rewrite andb_false_r in Hseg.
        destruct (IH Hrest (PrimFloat.add (PrimFloat.add acc travel) (float_of_int w)))
          as (lines & acc' & Hrec & Hday & Htravel & Hlast).
        exists (SegmentLine from_loc to_loc :: TravelTimeLine travel
                :: VisitTimeLine to_loc w :: lines), acc'.
        split.
        { rewrite Hseg, !and_then_emit, Hrec. reflexivity. }
        split; [repeat constructor; exact Hday|].
        split.
        { simpl filter. simpl List.length. rewrite Htravel. simpl. lia. }
        change (last (a :: b :: c :: rest'') 0) with (last (b :: c :: rest'') 0).
        destruct (getitem (LOCATIONS cfg) (last (b :: c :: rest'') 0)) as [name|];
          [|discriminate].
        change (2 <=? List.length (a :: b :: c :: rest''))%nat with true.
        change (2 <=? List.length (b :: c :: rest''))%nat with true in Hlast.
        rewrite Hloop.
        destruct (is_anchor name && true); destruct Hlast as [Ht Hv];
          (split; [exact Ht|]); simpl filter; simpl List.length;
          rewrite Hv; simpl; lia.
Qed.

Lemma day_block_spec (cfg : Config) (day : nat) (route : list Z) :
  tables_cover cfg ->
  Forall (location cfg) route ->
  exists lines d t,
    day_block cfg day route = (lines, Ok (d, t)) /\
    calculate_route_distance cfg route = Ok d /\
    calculate_route_time_f64 cfg route = Ok t /\
    Forall (fun l => is_day_line l = true) lines /\
    In (DayTimeLine t) lines.
Proof.
  intros Hcover Hloc.
  destruct (location_names_ok cfg route Hloc) as (names & Hnames & _).
  destruct (calculate_route_distance_ok cfg Hcover route Hloc) as [d Hd].
  destruct (calculate_route_time_f64_ok cfg route Hcover Hloc) as [t Ht].
  destruct (segments_spec cfg route Hcover Hloc (float_of_int 0))
    as (lines & acc & Hseg & Hday & _).
  exists (DayHeader day :: RouteLine names :: DetailHeader
          :: lines ++ [SummaryHeader day; DayDistanceLine d; DayTimeLine t]), d, t.
  split.
  { unfold day_block.
    rewrite and_then_emit, Hnames, and_then_call_ok, and_then_emit,
      Hd, and_then_call_ok, Ht, and_then_call_ok, and_then_emit.
    rewrite (and_then_ok _ _ lines acc Hseg). reflexivity. }
  split; [exact Hd|]. split; [exact Ht|]. split.
  - repeat constructor. apply Forall_app. split; [exact Hday|repeat constructor].
  - right. right. right. apply in_app_iff. right. right. right. now left.
Qed.

Lemma days_spec (cfg : Config) (routes : list (list Z)) :
  tables_cover cfg ->
  Forall (Forall (location cfg)) routes ->
  forall day total_distance_global total_time_global,
  exists lines ds total_time_global',
    days cfg routes day total_distance_global total_time_global
    = (lines, Ok (fold_left (fun total d => wrap64 (total + d)) ds total_distance_global,
                  total_time_global')) /\
    Forall2 (fun route d => calculate_route_distance cfg route = Ok d) routes ds /\
    Forall (fun l => is_day_line l = true) lines.
Proof.
  intros Hcover. induction routes as [|route rest IH]; intros Hloc day D T.
  - exists [], [], T. repeat split; constructor.
  - inversion Hloc as [|? ? Hroute Hrest]; subst.
    destruct (day_block_spec cfg day route Hcover Hroute)
      as (lines & d & t & Hblock & Hd & _ & Hday & _).
    destruct (IH Hrest (S day) (wrap64 (D + d)) (PrimFloat.add T t))
      as (lines' & ds & T' & Hdays & Hds & Hday').
    exists (lines ++ lines'), (d :: ds), T'. split.
    + cbn [days]. rewrite (and_then_ok _ _ lines (d, t) Hblock).
      simpl fst. simpl snd. rewrite Hdays. reflexivity.
    + split; [now constructor|]. apply Forall_app. now split.
Qed.

Lemma In_removelast {A : Type} (x : A) (xs : list A) : In x (removelast xs) -> In x xs.
Proof.
  induction xs as [|y ys IH]; [auto|].
  destruct ys as [|z zs]; [intros []|].
  intros [<- | Hin]; [now left|right; now apply IH].
Qed.

Lemma intermediate_locations (cfg : Config) (route : list Z) :
  Forall (location cfg) route -> Forall (location cfg) (intermediate route).
Proof.
  intros Hloc. rewrite Forall_forall in *. intros i Hi. apply Hloc.
  unfold intermediate in Hi. apply In_removelast in Hi.
  destruct route; [contradiction|now right].
Qed.

Lemma visited_spec (cfg : Config) (routes : list (list Z)) :
  Forall (Forall (location cfg)) routes ->
  forall day,
  exists lines,
    visited cfg routes day = (lines, Ok tt) /\
    Forall (fun l => is_visited_line l = true) lines /\
    (Forall (fun route => intermediate route <> []) routes ->
     forall day', ~ In (TransferLine day') lines).
Proof.
  induction routes as [|route rest IH]; intros Hloc day.
  - exists []. split; [reflexivity|]. split; [constructor|]. intros _ day' [].
  - inversion Hloc as [|? ? Hroute Hrest]; subst.
    destruct (location_names_ok cfg (intermediate route)
                (intermediate_locations cfg route Hroute)) as (names & Hnames & Hlen).
    destruct (IH Hrest (S day)) as (lines & Hvisited & Hkind & Hnone).
    exists ((match names with [] => TransferLine day | _ => VisitedLine day names end)
            :: lines).
    split.
    + cbn [visited]. rewrite Hnames, and_then_call_ok.
      destruct names; rewrite and_then_emit, Hvisited; reflexivity.
    + split; [constructor; [now destruct names|exact Hkind]|].
      intros Hstops day' [Hhere | Hlater].
      * inversion Hstops as [|? ? Hstop _]; subst.
        destruct names; [|discriminate].
        destruct (intermediate route); [now apply Hstop|discriminate].
      * inversion Hstops as [|? ? _ Hstops']; subst. exact (Hnone Hstops' day' Hlater).
Qed.

(** The shape of the report on routes whose stops are all locations. *)
Lemma print_detailed_itinerary_spec (cfg : Config) (routes : list (list Z)) :
  tables_cover cfg ->
  Forall (Forall (location cfg)) routes ->
  exists day_lines ds total_time_global visited_lines,
    print_detailed_itinerary cfg routes
    = (day_lines ++ FinalHeader
         :: TotalDistanceLine (fold_left (fun total d => wrap64 (total + d)) ds 0)
         :: TotalTimeLine total_time_global :: VisitedHeader :: visited_lines, Ok tt) /\
    Forall2 (fun route d => calculate_route_distance cfg route = Ok d) routes ds /\
    Forall (fun l => is_day_line l = true) day_lines /\
    Forall (fun l => is_visited_line l = true) visited_lines /\
    (Forall (fun route => intermediate route <> []) routes ->
     forall day, ~ In (TransferLine day) visited_lines).
Proof.
  intros Hcover Hloc.
  destruct (days_spec cfg routes Hcover Hloc 1%nat 0 (float_of_int 0))
    as (day_lines & ds & T & Hdays & Hds & Hday).
  destruct (visited_spec cfg routes Hloc 1%nat) as (visited_lines & Hvisited & Hkind & Hnone).
  exists day_lines, ds, T, visited_lines. split; [|now repeat split].
  unfold print_detailed_itinerary.
  rewrite (and_then_ok _ _ day_lines _ Hdays).
  rewrite !and_then_emit, Hvisited. reflexivity.
Qed.

(** X17. The report on a DayAssignment of the enumeration, which is all
    the search can return: on a well-formed instance
    [print_detailed_itinerary] raises nothing, the one total distance it
    prints is the total the search compared, and no day is printed as a day
    of transfer, every day having a stop between its ends. *)
Theorem report_prints_the_compared_total (cfg : Config) (routes : list (list Z)) :
  well_formed cfg ->
  In routes (candidates cfg) ->
  exists lines d,
    print_detailed_itinerary cfg routes = (lines, Ok tt) /\
    total_distance cfg routes = Ok d /\
    (forall d', In (TotalDistanceLine d') lines <-> d' = d) /\
    (forall day, ~ In (TransferLine day) lines).
Proof.
  intros Hwf Hin.
  destruct (candidate_locations cfg routes Hwf Hin) as [Hloc Hstops].
  destruct (print_detailed_itinerary_spec cfg routes (proj1 Hwf) Hloc)
    as (day_lines & ds & T & visited_lines & Hprint & Hds & Hday & Hkind & Hnone).
  destruct (candidate_inv cfg routes Hin) as (a & h & n & c & _ & _ & ->).
  unfold day_assignment in *.
  inversion Hds as [|r1 d1 ? ds1 Hd1 Hds1]; subst.
  inversion Hds1 as [|r2 d2 ? ds2 Hd2 Hds2]; subst.
  inversion Hds2 as [|r3 d3 ? ds3 Hd3 Hds3]; subst.
  inversion Hds3; subst.
  eexists. exists (wrap64 (wrap64 (d1 + d2) + d3)).
  split; [exact Hprint|]. split.
  { unfold total_distance, bind. cbn [app]. rewrite Hd1, Hd2, Hd3. reflexivity. }
  assert (fold_left (fun total d => wrap64 (total + d)) [d1; d2; d3] 0
          = wrap64 (wrap64 (d1 + d2) + d3)) as Htotal.
  { cbn [fold_left]. now rewrite Z.add_0_l, (wrap64_add_l d1 d2). }
  rewrite Htotal. rewrite Forall_forall in Hday, Hkind. split.
  - intros d'. split.
    + intros Hline. apply in_app_iff in Hline. destruct Hline as [Hline | Hline].
      * apply Hday in Hline. discriminate.
      * destruct Hline as [Hline | [Hline | [Hline | [Hline | Hline]]]];
          try discriminate.
        -- now injection Hline as <-.
        -- apply Hkind in Hline. discriminate.
    + intros ->. apply in_app_iff. right. right. now left.
  - intros day Hline. apply in_app_iff in Hline. destruct Hline as [Hline | Hline].
    + apply Hday in Hline. discriminate.
    + destruct Hline as [Hline | [Hline | [Hline | [Hline | Hline]]]];
        try discriminate.
      exact (Hnone Hstops day Hline).
Qed.

Lemma report_prints_the_compared_total_witness :
  exists lines d,
    print_detailed_itinerary reference reference_routes = (lines, Ok tt) /\
    total_distance reference reference_routes = Ok d /\
    (forall d', In (TotalDistanceLine d') lines <-> d' = d) /\
    (forall day, ~ In (TransferLine day) lines).
Proof.
  apply (report_prints_the_compared_total reference reference_routes).
  - exact reference_well_formed.
  - exact (returned_is_candidate reference reference_routes reference_final reference_run).
Defined.

(** X18. The detail of a day that ends at the hotel or at the airport
    leaves the dwell time there out: the loop over the segments prints a
    travel time for every segment and a visit time for every segment but the
    last, and the total it accumulates is short of the time of the day that
    [calculate_route_time] returns by that dwell time. *)
Theorem segment_detail_omits_the_last_dwell (cfg : Config) (route : list Z) (name : string) :
  tables_cover cfg ->
  Forall (location cfg) route ->
  (2 <= List.length route)%nat ->
  getitem (LOCATIONS cfg) (last route 0) = Ok name ->
  is_anchor name = true ->
  exists lines current_time_accumulator,
    segments cfg route (float_of_int 0) = (lines, Ok current_time_accumulator) /\
    calculate_route_time_f64 cfg route
    = Ok (PrimFloat.add current_time_accumulator
            (float_of_int (dwellTime cfg (last route 0)))) /\
    List.length (filter is_travel_time_line lines) = (List.length route - 1)%nat /\
    List.length (filter is_visit_time_line lines) = (List.length route - 2)%nat.
Proof.
  intros Hcover Hloc Hlen Hname Hanchor.
  destruct (segments_spec cfg route Hcover Hloc (float_of_int 0))
    as (lines & acc & Hseg & _ & Htravel & Hlast).
  rewrite Hname, Hanchor in Hlast.
  apply Nat.leb_le in Hlen. rewrite Hlen in Hlast. destruct Hlast as [Htime Hvisit].
  exists lines, acc. now repeat split.
Qed.

Lemma segment_detail_omits_the_last_dwell_witness :
  exists lines current_time_accumulator,
    segments reference [0; 2; 3; 5; 7] (float_of_int 0) = (lines, Ok current_time_accumulator) /\
    calculate_route_time_f64 reference [0; 2; 3; 5; 7]
    = Ok (PrimFloat.add current_time_accumulator
            (float_of_int (dwellTime reference (last [0; 2; 3; 5; 7] 0)))) /\
    List.length (filter is_travel_time_line lines) = (List.length [0; 2; 3; 5; 7] - 1)%nat /\
    List.length (filter is_visit_time_line lines) = (List.length [0; 2; 3; 5; 7] - 2)%nat.
Proof.
  apply (segment_detail_omits_the_last_dwell reference [0; 2; 3; 5; 7] "Hotel").
  - exact reference_tables_cover.
  - repeat (apply Forall_cons; [unfold location; simpl; lia|]). apply Forall_nil.
  - simpl. lia.
  - reflexivity.
  - reflexivity.
Defined.

(** X19. A day that ends anywhere else has the dwell time at its last
    stop in the detail too: a visit time is printed for every segment, and
    the total the loop accumulates is the time of the day. *)
Theorem segment_detail_adds_up_elsewhere (cfg : Config) (route : list Z) (name : string) :
  tables_cover cfg ->
  Forall (location cfg) route ->
  getitem (LOCATIONS cfg) (last route 0) = Ok name ->
  is_anchor name = false ->
  exists lines current_time_accumulator,
    segments cfg route (float_of_int 0) = (lines, Ok current_time_accumulator) /\
    calculate_route_time_f64 cfg route = Ok current_time_accumulator /\
    List.length (filter is_travel_time_line lines) = (List.length route - 1)%nat /\
    List.length (filter is_visit_time_line lines) = (List.length route - 1)%nat.
Proof.
  intros Hcover Hloc Hname Hanchor.
  destruct (segments_spec cfg route Hcover Hloc (float_of_int 0))
    as (lines & acc & Hseg & _ & Htravel & Hlast).
  rewrite Hname, Hanchor in Hlast. simpl in Hlast. destruct Hlast as [Htime Hvisit].
  exists lines, acc. now repeat split.
Qed.

Lemma segment_detail_adds_up_elsewhere_witness :
  exists lines current_time_accumulator,
    segments reference [0; 2; 3] (float_of_int 0) = (lines, Ok current_time_accumulator) /\
    calculate_route_time_f64 reference [0; 2; 3] = Ok current_time_accumulator /\
    List.length (filter is_travel_time_line lines) = (List.length [0; 2; 3] - 1)%nat /\
    List.length (filter is_visit_time_line lines) = (List.length [0; 2; 3] - 1)%nat.
Proof.
  apply (segment_detail_adds_up_elsewhere reference [0; 2; 3] "NRG Stadium").
  - exact reference_tables_cover.
  - repeat (apply Forall_cons; [unfold location; simpl; lia|]). apply Forall_nil.
  - reflexivity.
  - reflexivity.
Defined.

(** X20. A route with an index off the [LOCATIONS] axis stops the report
    at its first day: the header of the day is printed, and the list of the
    names raises [IndexError] before any distance is read. *)
Theorem report_stops_at_an_unknown_location (cfg : Config)
    (route : list Z) (rest : list (list Z)) :
  Exists (fun i => ~ on_axis (List.length (LOCATIONS cfg)) i) route ->
  print_detailed_itinerary cfg (route :: rest) = ([DayHeader 1], Raise IndexError).
Proof.
  intros Hout. unfold print_detailed_itinerary. cbn [days]. unfold day_block.
  rewrite and_then_emit, (location_names_raise cfg route Hout). reflexivity.
Qed.

Lemma report_stops_at_an_unknown_location_witness :
  print_detailed_itinerary reference ([0; 8; 7] :: [[7; 4; 7]])
  = ([DayHeader 1], Raise IndexError).
Proof.
  apply (report_stops_at_an_unknown_location reference [0; 8; 7] [[7; 4; 7]]).
  apply Exists_cons_tl, Exists_cons_hd. unfold on_axis. simpl. lia.
Defined.

(** ** The entry point *)

Lemma report_has_no_text (cfg : Config) (routes : list (list Z)) :
  tables_cover cfg ->
  Forall (Forall (location cfg)) routes ->
  exists lines,
    print_detailed_itinerary cfg routes = (lines, Ok tt) /\
    forall text, ~ In (Text text) lines.
Proof.
  intros Hcover Hloc.
  destruct (print_detailed_itinerary_spec cfg routes Hcover Hloc)
    as (day_lines & ds & T & visited_lines & Hprint & _ & Hday & Hkind & _).
  eexists. split; [exact Hprint|].
  rewrite Forall_forall in Hday, Hkind.
  intros text Hline. apply in_app_iff in Hline. destruct Hline as [Hline | Hline].
  - apply Hday in Hline. discriminate.
  - destruct Hline as [Hline | [Hline | [Hline | [Hline | Hline]]]]; try discriminate.
    apply Hkind in Hline. discriminate.
Qed.

Lemma main_found (cfg : Config) (day1 : list Z) (others : list (list Z)) (s : state)
    (lines : list line) (r : res unit) :
  find_best_routes_f64 cfg = Ok (Some (day1 :: others), s) ->
  print_detailed_itinerary cfg (day1 :: others) = (lines, r) ->
  main cfg = (Text calculando :: map Text (stdout s) ++ Text encontrado :: lines, r).
Proof.
  intros Hrun Hprint. unfold main, and_then, emit. rewrite Hrun, Hprint. reflexivity.
Qed.

Lemma main_not_found (cfg : Config) (s : state) :
  find_best_routes_f64 cfg = Ok (None, s) ->
  main cfg = (Text calculando :: map Text (stdout s) ++ [Text no_encontrado], Ok tt).
Proof.
  intros Hrun. unfold main, and_then, emit. rewrite Hrun. reflexivity.
Qed.

(** X21. The script run on a well-formed instance: it raises nothing, it
    announces an itinerary exactly when some DayAssignment of the enumeration
    has its three routes pass the ceiling test, and it prints that none was
    found exactly when none has. *)
Theorem main_prints_one_verdict (cfg : Config) :
  well_formed cfg ->
  exists lines,
    main cfg = (lines, Ok tt) /\
    (In (Text encontrado) lines <->
     exists routes, In routes (candidates cfg) /\ feasible_f64 cfg routes) /\
    (In (Text no_encontrado) lines <->
     forall routes, In routes (candidates cfg) -> ~ feasible_f64 cfg routes).
Proof.
  intros Hwf.
  destruct (find_best_routes_f64_returns cfg Hwf) as (v & s & Hrun).
  destruct v as [routes|].
  - (* an itinerary was found *)
    destruct (find_best_routes_f64_some cfg routes s Hrun) as (Hfirst & _ & Hout).
    destruct Hfirst as (before & after & d & Hsplit & Hf & _).
    assert (In routes (candidates cfg)) as Hin.
    { rewrite Hsplit. apply in_app_iff. right. now left. }
    destruct (candidate_locations cfg routes Hwf Hin) as [Hloc _].
    destruct (report_has_no_text cfg routes (proj1 Hwf) Hloc) as (lines & Hprint & Hnotext).
    destruct (candidate_inv cfg routes Hin) as (a & h & n & c & _ & _ & Hshape).
    clear Hsplit. rewrite Hshape in *. unfold day_assignment in *.
    exists (Text calculando :: Text encontrado :: lines). split.
    { rewrite (main_found cfg _ _ s lines (Ok tt) Hrun Hprint), Hout. reflexivity. }
    split.
    + split; [|intros _; right; now left].
      intros _. eexists. split; [exact Hin|exact Hf].
    + split.
      * intros [Hline | [Hline | Hline]]; [discriminate|discriminate|].
        now apply Hnotext in Hline.
      * intros Hnone. exfalso. exact (Hnone _ Hin Hf).
  - (* none was found *)
    destruct (find_best_routes_f64_none cfg s Hrun) as [Hout Hnone].
    exists (Text calculando :: map Text (stdout s) ++ [Text no_encontrado]). split.
    { exact (main_not_found cfg s Hrun). }
    split.
    + split.
      * intros [Hline | Hline]; [discriminate|].
        apply in_app_iff in Hline. destruct Hline as [Hline | [Hline | []]];
          [|discriminate].
        destruct Hout as [Hout | Hout]; rewrite Hout in Hline;
          [destruct Hline|destruct Hline as [Hline | []]; discriminate].
      * intros (routes & Hin & Hf). exfalso. exact (Hnone routes Hin Hf).
    + split; [intros _; exact Hnone|].
      intros _. right. apply in_app_iff. right. now left.
Qed.

Lemma main_prints_one_verdict_witness :
  exists lines,
    main ceiling_10 = (lines, Ok tt) /\
    (In (Text encontrado) lines <->
     exists routes, In routes (candidates ceiling_10) /\ feasible_f64 ceiling_10 routes) /\
    (In (Text no_encontrado) lines <->
     forall routes, In routes (candidates ceiling_10) -> ~ feasible_f64 ceiling_10 routes).
Proof.
  apply (main_prints_one_verdict ceiling_10).
  exact reference_well_formed.
Defined.

(** X22. When one of the three names the search looks up is not in
    [LOCATIONS], the script prints its first line and ends with the
    [ValueError] of the search. *)
Theorem main_stops_on_a_missing_name (cfg : Config) :
  ~ (In "Aeropuerto"%string (LOCATIONS cfg) /\
     In "Hotel"%string (LOCATIONS cfg) /\
     In "NASA"%string (LOCATIONS cfg)) ->
  main cfg = ([Text calculando], Raise ValueError).
Proof.
  intros Hmissing. unfold main.
  rewrite (missing_name_raises_f64 cfg Hmissing), and_then_emit. reflexivity.
Qed.

Lemma main_stops_on_a_missing_name_witness :
  main no_nasa = ([Text calculando], Raise ValueError).
Proof.
  apply (main_stops_on_a_missing_name no_nasa).
  simpl. intros (_ & _ & H). intuition discriminate.
Defined.
